(** * Batch move / batch delete handlers of the repository manager

    A shallow embedding of the two serverless handlers
    [supabase/functions/delete-items/index.ts] and
    [supabase/functions/move-files/index.ts], and of the client-side
    destination validator of [src/components/repository/MoveItemsDialog.tsx].

    JavaScript strings are modelled as [string] (a sequence of code units),
    arrays as [list].  Calls to the hosted provider are modelled by an
    arbitrary state machine [remote] answering typed calls; a handler is a
    computation that threads the provider's state and records every call it
    issues, in order, together with whether the response was [ok].

    A handler is modelled from its [try] block on, for a body that parses
    to the fields its schema names; the CORS preflight branch is left out.
    [fetch] always resolves to a response, [ok] or not; the body of an [ok]
    response has the shape the handlers read from it.  The recursion of the
    lister is bounded by a fuel; running out of it is an outcome of its
    own, distinct from a result and from a thrown error.

    The file has three parts: the embedding of the source; the vocabulary of
    the statements, with a small provider and the runs used as examples;
    the lemmas and theorems. *)

From Stdlib Require Import String Ascii List Bool Arith Lia DecimalString.
From Stdlib Require Import Sorted Permutation.
Import ListNotations.
Local Open Scope string_scope.
Local Open Scope list_scope.

Set Implicit Arguments.

(* ===================================================================== *)
(** ** String operations of the JavaScript run time used by the handlers *)
(* ===================================================================== *)

Module Js.

(** [s.startsWith(p)] *)
Definition startsWith (s p : string) : bool := String.prefix p s.

(** [s.includes(needle)] *)
Fixpoint includes (s needle : string) : bool :=
  String.prefix needle s ||
  match s with
  | EmptyString => false
  | String _ rest => includes rest needle
  end.

(** [s.endsWith(suf)] *)
Fixpoint endsWith (s suf : string) : bool :=
  String.eqb s suf ||
  match s with
  | EmptyString => false
  | String _ rest => endsWith rest suf
  end.

(** [s.lastIndexOf(c)] for a one-character needle; [None] stands for -1. *)
Fixpoint lastIndexOf (s : string) (c : ascii) : option nat :=
  match s with
  | EmptyString => None
  | String a rest =>
      match lastIndexOf rest c with
      | Some i => Some (S i)
      | None => if Ascii.eqb a c then Some 0 else None
      end
  end.

(** [s.slice(0, n)] *)
Fixpoint take (n : nat) (s : string) : string :=
  match n, s with
  | S k, String a rest => String a (take k rest)
  | _, _ => EmptyString
  end.

(** [s.slice(n)] *)
Fixpoint drop (n : nat) (s : string) : string :=
  match n, s with
  | S k, String _ rest => drop k rest
  | _, _ => s
  end.

(** [s.split(c)] for a one-character separator: never the empty array. *)
Fixpoint split (s : string) (c : ascii) : list string :=
  match s with
  | EmptyString => [EmptyString]
  | String a rest =>
      if Ascii.eqb a c then EmptyString :: split rest c
      else match split rest c with
           | [] => [String a EmptyString]
           | w :: ws => String a w :: ws
           end
  end.

(** [arr.pop()] on a non-empty array of strings (the value returned). *)
Definition pop (l : list string) : string := List.last l EmptyString.

(** [s.replace(/^\//, '')]: one leading slash is removed. *)
Definition stripLeadingSlash (s : string) : string :=
  match s with
  | String "/" rest => rest
  | _ => s
  end.

(** Truthiness of a string: the empty string is falsy. *)
Definition truthy (s : string) : bool := negb (String.eqb s EmptyString).

(** [`${n}`] for a non-negative integer. *)
Definition ofNat (n : nat) : string := NilEmpty.string_of_uint (Nat.to_uint n).

(** [arr.join(sep)] *)
Fixpoint join (l : list string) (sep : string) : string :=
  match l with
  | [] => EmptyString
  | [x] => x
  | x :: rest => (x ++ sep ++ join rest sep)%string
  end.

End Js.

(* ===================================================================== *)
(** ** Data model *)
(* ===================================================================== *)

(** [z.enum(['file', 'dir'])] *)
Inductive ItemType := TFile | TDir.

Definition ItemType_eqb (a b : ItemType) : bool :=
  match a, b with
  | TFile, TFile | TDir, TDir => true
  | _, _ => false
  end.

(** An item of a delete request: [{ path, type }]. *)
Record DeleteItem := { di_path : string; di_type : ItemType }.

(** An item of a move request / of the dialog's selection:
    [{ path, sha, type }]. *)
Record FileItem := { path : string; sha : string; type : ItemType }.

(** An entry of the provider's recursive tree listing.  [te_type] is the
    provider's own tag ("blob", "tree", "commit"). *)
Record TreeEntry := {
  te_path : string;
  te_mode : string;
  te_type : string;
  te_sha  : string;
  te_size : option nat;
  te_url  : string
}.

(** An entry of the tree object the deleter submits:
    [{ path, mode, type, sha }]. *)
Record NewTreeEntry := {
  nt_path : string;
  nt_mode : string;
  nt_type : string;
  nt_sha  : string
}.

(** An entry of a directory listing of the contents endpoint. *)
Record ContentItem := { ci_type : string; ci_path : string; ci_sha : string }.

(** What the lister collects: [{ path, sha }]. *)
Record FileRef := { fr_path : string; fr_sha : string }.

(* ===================================================================== *)
(** ** The deleter's tree rewrite (delete-items/index.ts, lines 132-153) *)
(* ===================================================================== *)

Module TreeRewrite.

(** [items.filter(i => i.type === 'dir')
         .map(d => d.path.endsWith('/') ? d.path : `${d.path}/`)] *)
Definition dirPaths (items : list DeleteItem) : list string :=
  map (fun d => if Js.endsWith (di_path d) "/" then di_path d
                else (di_path d ++ "/")%string)
      (filter (fun i => ItemType_eqb (di_type i) TDir) items).

(** [new Set(items.filter(i => i.type === 'file').map(f => f.path))];
    only membership is ever asked of the set. *)
Definition filePaths (items : list DeleteItem) : list string :=
  map di_path (filter (fun i => ItemType_eqb (di_type i) TFile) items).

Definition has (s : list string) (x : string) : bool :=
  existsb (String.eqb x) s.

Definition keep (items : list DeleteItem) (item : TreeEntry) : bool :=
  let inDeletedDir :=
    existsb (fun dp => Js.startsWith (te_path item) dp) (dirPaths items) in
  let isDeletedFile := has (filePaths items) (te_path item) in
  negb inDeletedDir && negb isDeletedFile.

Definition project (item : TreeEntry) : NewTreeEntry :=
  {| nt_path := te_path item; nt_mode := te_mode item;
     nt_type := te_type item; nt_sha := te_sha item |}.

Definition newTree (items : list DeleteItem) (tree : list TreeEntry)
  : list NewTreeEntry :=
  map project
    (filter (fun item => String.eqb (te_type item) "blob")
       (filter (keep items) tree)).

End TreeRewrite.

(* ===================================================================== *)
(** ** Calls to the provider, and computations that issue them *)
(* ===================================================================== *)

(** A response: [ok] with its JSON body, or not [ok] with its status and
    its text. *)
Inductive Resp (A : Type) :=
| RespOk (json : A)
| RespErr (status : nat) (text : string).
Arguments RespErr {A} status text.

Definition isOk {A} (r : Resp A) : bool :=
  match r with RespOk _ => true | RespErr _ _ => false end.

(** The contents endpoint answers a directory path with an array of
    entries and a file path with one object. *)
Inductive Contents :=
| Listing (items : list ContentItem)
| FileObject (content : string) (sha : string).

(** The provider calls the two handlers issue, with the parts of the URL and
    of the body that vary.  Headers are the same on every call and are left
    out. *)
Inductive Call :=
| GetRef (owner repo branch : string)
| GetCommit (owner repo sha : string)
| GetTree (owner repo sha : string)
| CreateTree (owner repo : string) (tree : list NewTreeEntry)
| CreateCommit (owner repo message tree : string) (parents : list string)
| UpdateRef (owner repo branch sha : string)
| GetContents (owner repo path branch : string)
| PutContents (owner repo path message : string) (content : option string)
              (branch : string) (sha : option string)
| DeleteContents (owner repo path message sha branch : string).

(** The part of an [ok] response's body the handlers read:
    [refData.object.sha], [commitData.tree.sha], [treeData.tree],
    [newTreeData.sha], [newCommitData.sha], the contents. *)
Definition payload (c : Call) : Type :=
  match c with
  | GetRef _ _ _ => string
  | GetCommit _ _ _ => string
  | GetTree _ _ _ => list TreeEntry
  | CreateTree _ _ _ => string
  | CreateCommit _ _ _ _ _ => string
  | UpdateRef _ _ _ _ => unit
  | GetContents _ _ _ _ => Contents
  | PutContents _ _ _ _ _ _ _ => unit
  | DeleteContents _ _ _ _ _ _ => unit
  end.

(** One issued call and whether its response was [ok]. *)
Record Event := { call : Call; ok : bool }.

(** What a handler can throw: a run-time [TypeError], the schema library's
    error, or [new Error(message)]. *)
Inductive Exn :=
| TypeError
| ZodError
| Error (message : string).

Inductive Outcome (A : Type) :=
| Ret (a : A)
| Throw (e : Exn)
| OutOfFuel.
Arguments Throw {A} e.
Arguments OutOfFuel {A}.

(** Responses of the handlers. *)
Record Detail := { src : string; dest : string; d_status : string }.

Inductive Body :=
| BError (error : string)          (* { error } *)
| BInvalidInput                    (* { error: 'Invalid input', details } *)
| BUncaught (e : Exn)              (* { error: error.message } of a library error *)
| BMoved (moved skipped : nat) (details : list Detail)
| BDeleted (deleted : nat).

Record HttpResponse := { status : nat; body : Body }.

(** The stored profile of the caller. An absent token is the empty string. *)
Record Profile := { github_username : string; github_access_token : string }.

Module Mon.
Section Mon.

Variable W : Type.
Variable remote : W -> forall c : Call, W * Resp (payload c).

(** A computation: from the provider's state to an outcome, the provider's
    new state and the calls issued, oldest first. *)
Definition M (A : Type) : Type := W -> Outcome A * W * list Event.

Definition ret {A} (a : A) : M A := fun w => (Ret a, w, []).

Definition throw {A} (e : Exn) : M A := fun w => (Throw e, w, []).

Definition diverge {A} : M A := fun w => (OutOfFuel, w, []).

Definition bind {A B} (m : M A) (k : A -> M B) : M B :=
  fun w =>
    match m w with
    | (Ret a, w1, t1) =>
        match k a w1 with (o, w2, t2) => (o, w2, t1 ++ t2) end
    | (Throw e, w1, t1) => (Throw e, w1, t1)
    | (OutOfFuel, w1, t1) => (OutOfFuel, w1, t1)
    end.

(** [try { m } catch (error) { h error }] *)
Definition catch {A} (m : M A) (h : Exn -> M A) : M A :=
  fun w =>
    match m w with
    | (Throw e, w1, t1) =>
        match h e w1 with (o, w2, t2) => (o, w2, t1 ++ t2) end
    | r => r
    end.

(** [await fetch(...)] *)
Definition fetch (c : Call) : M (Resp (payload c)) :=
  fun w =>
    match remote w c with
    | (w1, r) => (Ret r, w1, [{| call := c; ok := isOk r |}])
    end.

(** [for (const x of l) { s = body s x }] *)
Fixpoint forOf {A S} (l : list A) (s : S) (body : S -> A -> M S) : M S :=
  match l with
  | [] => ret s
  | x :: rest => bind (body s x) (fun s1 => forOf rest s1 body)
  end.

(** A loop whose body may [return] from the enclosing function: [inl] goes
    on with the next element, [inr] leaves with the returned value. *)
Fixpoint forOfReturn {A S R} (l : list A) (s : S)
         (body : S -> A -> M (S + R)) : M (S + R) :=
  match l with
  | [] => ret (inl s)
  | x :: rest =>
      bind (body s x) (fun r =>
        match r with
        | inl s1 => forOfReturn rest s1 body
        | inr v => ret (inr v)
        end)
  end.

End Mon.

Arguments ret {W A} a.
Arguments throw {W A} e.
Arguments diverge {W A}.
Arguments bind {W A B} m k.
Arguments catch {W A} m h.
Arguments fetch {W} remote c.
Arguments forOf {W A S} l s body.
Arguments forOfReturn {W A S R} l s body.

End Mon.

Declare Scope handler_scope.
Delimit Scope handler_scope with handler.
Notation "x <- m ;; k" := (Mon.bind m (fun x => k))
  (at level 61, m at next level, right associativity) : handler_scope.

(* ===================================================================== *)
(** ** Path arithmetic of the mover (move-files/index.ts) *)
(* ===================================================================== *)

(** [p.includes('/') ? p.slice(0, p.lastIndexOf('/')) : ''], the source's
    [sourceDir] and [parentDir]. *)
Definition containingFolder (p : string) : string :=
  if Js.includes p "/" then
    match Js.lastIndexOf p "/" with
    | Some i => Js.take i p
    | None => Js.take (String.length p - 1) p   (* slice(0, -1) *)
    end
  else EmptyString.

(** [p.split('/').pop()], the source's [fileName] and [dirBaseName]. *)
Definition baseName (p : string) : string := Js.pop (Js.split p "/").

(** [destination ? `${destination}/${name}` : name] *)
Definition under (destination name : string) : string :=
  if Js.truthy destination then (destination ++ "/" ++ name)%string else name.

(** What the loop decides for one item before anything is fetched
    (lines 169-198): record a skip and [continue], [return] the 400
    response, or go on to move the item. *)
Inductive Check :=
| SkipItem (status : string)
| RejectRequest
| Proceed.

Definition checkItem (destination : string) (file : FileItem) : Check :=
  let sourceDir := containingFolder (path file) in
  match type file with
  | TFile =>
      if String.eqb destination sourceDir then SkipItem "skipped (same folder)"
      else Proceed
  | TDir =>
      let parentDir := containingFolder (path file) in
      if String.eqb destination parentDir then SkipItem "skipped (same parent)"
      else if String.eqb destination (path file)
              || (Js.truthy destination
                  && Js.startsWith destination (path file ++ "/"))
           then RejectRequest
           else Proceed
  end.

Definition quote : string := String (ascii_of_nat 34) EmptyString.

Definition cycleMessage (p destination : string) : string :=
  ("Cannot move folder " ++ quote ++ p ++ quote
   ++ " into itself or its descendant " ++ quote ++ destination ++ quote)%string.

(** [movedCount], [skippedCount] and [details]. *)
Record Tally := { movedCount : nat; skippedCount : nat; details : list Detail }.

Definition skip (t : Tally) (d : Detail) : Tally :=
  {| movedCount := movedCount t;
     skippedCount := S (skippedCount t);
     details := details t ++ [d] |}.

(** [{ status, reason? }] returned by the single-item mover. *)
Record MoveResult := { mr_status : string; mr_reason : option string }.

(** [if (result.status === 'moved') movedCount++ else skippedCount++;
     details.push({ src, dest, status: result.status })] *)
Definition record (t : Tally) (s d : string) (result : MoveResult) : Tally :=
  {| movedCount :=
       if String.eqb (mr_status result) "moved" then S (movedCount t)
       else movedCount t;
     skippedCount :=
       if String.eqb (mr_status result) "moved" then skippedCount t
       else S (skippedCount t);
     details :=
       details t ++ [{| src := s; dest := d; d_status := mr_status result |}] |}.

(** The move request after [moveFilesSchema]'s default for [branch]. *)
Record MoveRequest := {
  mv_owner : string;
  mv_repo : string;
  mv_files : list FileItem;
  mv_destination : string;
  mv_branch : option string
}.

(** [supabase.auth.getUser()] and the caller's row of [profiles]. *)
Record Session := { user : option string; profile : option Profile }.

(* ===================================================================== *)
(** ** The mover: lister, single-item mover, batch handler *)
(* ===================================================================== *)

Section Mover.

Variable W : Type.
Variable remote : W -> forall c : Call, W * Resp (payload c).

Local Notation "'M'" := (Mon.M W).
Local Notation "'fetch'" := (Mon.fetch remote).
Local Open Scope handler_scope.

Section Closures.

(** The closures capture [owner], [repo] and [branch]. *)
Variables owner repo branch : string.

(** [listFilesRecursively] (lines 70-87).  [fuel] bounds the depth of the
    recursion. *)
Fixpoint listFilesRecursively (fuel : nat) (dirPath : string)
  : M (list FileRef) :=
  match fuel with
  | O => Mon.diverge
  | S fuel' =>
      res <- fetch (GetContents owner repo dirPath branch) ;;
      match res with
      | RespErr _ _ => Mon.ret []
      | RespOk (FileObject _ _) => Mon.throw TypeError (* not iterable *)
      | RespOk (Listing items) =>
          Mon.forOf items []
            (fun results item =>
               if String.eqb (ci_type item) "file" then
                 Mon.ret (results ++
                          [{| fr_path := ci_path item; fr_sha := ci_sha item |}])
               else if String.eqb (ci_type item) "dir" then
                 sub <- listFilesRecursively fuel' (ci_path item) ;;
                 Mon.ret (results ++ sub)
               else Mon.ret results)
      end
  end.

(** [moveSingleFile] (lines 90-159). *)
Definition moveSingleFile (srcPath srcSha destPath : string) : M MoveResult :=
  if String.eqb srcPath destPath then
    Mon.ret {| mr_status := "skipped"; mr_reason := Some "same path" |}
  else
    getSrc <- fetch (GetContents owner repo srcPath branch) ;;
    match getSrc with
    | RespErr _ _ =>
        Mon.throw (Error ("Failed to fetch source content for " ++ srcPath))
    | RespOk srcData =>
        checkDest <- fetch (GetContents owner repo destPath branch) ;;
        let content :=
          match srcData with
          | FileObject c _ => Some c
          | Listing _ => None
          end in
        let destSha :=
          match checkDest with
          | RespOk (FileObject _ s) => Some s
          | _ => None
          end in
        createRes <- fetch (PutContents owner repo destPath
                              ("Move " ++ srcPath ++ " to " ++ destPath)
                              content branch destSha) ;;
        match createRes with
        | RespErr _ errTxt =>
            Mon.throw (Error ("Failed to create " ++ destPath ++ ": " ++ errTxt))
        | RespOk _ =>
            deleteRes <- fetch (DeleteContents owner repo srcPath
                                  ("Delete old file " ++ srcPath)
                                  srcSha branch) ;;
            match deleteRes with
            | RespErr _ errTxt =>
                Mon.throw
                  (Error ("Failed to delete " ++ srcPath ++ ": " ++ errTxt))
            | RespOk _ =>
                Mon.ret {| mr_status := "moved"; mr_reason := None |}
            end
        end
    end.

(** The body of the loop over the selection (lines 165-232). *)
Definition moveItem (fuel : nat) (destination : string)
           (t : Tally) (file : FileItem) : M (Tally + HttpResponse) :=
  let fileName := baseName (path file) in
  match checkItem destination file with
  | SkipItem st =>
      Mon.ret (inl (skip t {| src := path file;
                              dest := if Js.truthy destination
                                      then destination else "root";
                              d_status := st |}))
  | RejectRequest =>
      Mon.ret (inr {| status := 400;
                      body := BError (cycleMessage (path file) destination) |})
  | Proceed =>
      match type file with
      | TDir =>
          let dirBaseName := baseName (path file) in
          let targetDir := under destination dirBaseName in
          dirFiles <- listFilesRecursively fuel (path file) ;;
          t' <- Mon.forOf dirFiles t
                  (fun t df =>
                     let relative :=
                       Js.stripLeadingSlash
                         (Js.drop (String.length (path file)) (fr_path df)) in
                     let newPath := (targetDir ++ "/" ++ relative)%string in
                     result <- moveSingleFile (fr_path df) (fr_sha df) newPath ;;
                     Mon.ret (record t (fr_path df) newPath result)) ;;
          Mon.ret (inl t')
      | TFile =>
          let newPath := under destination fileName in
          result <- moveSingleFile (path file) (sha file) newPath ;;
          Mon.ret (inl (record t (path file) newPath result))
      end
  end.

End Closures.

(** [moveFilesSchema.parse(body)]: [owner] and [repo] have [min(1)]. *)
Definition moveFilesSchema (req : MoveRequest) : bool :=
  Nat.leb 1 (String.length (mv_owner req))
  && Nat.leb 1 (String.length (mv_repo req)).

(** The handler of move-files (lines 26-252). *)
Definition moveFiles (fuel : nat) (req : MoveRequest) (sess : Session)
  : M HttpResponse :=
  Mon.catch
    (if negb (moveFilesSchema req) then Mon.throw ZodError else
     let owner := mv_owner req in
     let repo := mv_repo req in
     let files := mv_files req in
     let destination := mv_destination req in
     let branch := match mv_branch req with Some b => b | None => "main" end in
     match user sess with
     | None => Mon.ret {| status := 401; body := BError "Unauthorized" |}
     | Some _ =>
         match profile sess with
         | Some pr =>
             if Js.truthy (github_access_token pr) then
               r <- Mon.forOfReturn files
                      {| movedCount := 0; skippedCount := 0; details := [] |}
                      (moveItem owner repo branch fuel destination) ;;
               match r with
               | inr response => Mon.ret response
               | inl t =>
                   Mon.ret {| status := 200;
                              body := BMoved (movedCount t) (skippedCount t)
                                             (details t) |}
               end
             else Mon.ret {| status := 401;
                             body := BError "GitHub token not found" |}
         | None => Mon.ret {| status := 401;
                              body := BError "GitHub token not found" |}
         end
     end)
    (fun e =>
       Mon.ret {| status := 500;
                  body := match e with
                          | Error m => BError m
                          | _ => BUncaught e
                          end |}).

End Mover.

(* ===================================================================== *)
(** ** The deleter (delete-items/index.ts) *)
(* ===================================================================== *)

(** The body of a delete request. *)
Record DeleteRequest := {
  dl_owner : string;
  dl_repo : string;
  dl_branch : option string;
  dl_items : list DeleteItem
}.

Module Schema.

Definition between (lo hi : nat) (c : ascii) : bool :=
  Nat.leb lo (nat_of_ascii c) && Nat.leb (nat_of_ascii c) hi.

(** [[a-zA-Z0-9]] *)
Definition alnum (c : ascii) : bool :=
  between 97 122 c || between 65 90 c || between 48 57 c.

Fixpoint allChars (p : ascii -> bool) (s : string) : bool :=
  match s with
  | EmptyString => true
  | String c rest => p c && allChars p rest
  end.

(** [/^[...]+$/] for a character class [p]. *)
Definition matchesClass (p : ascii -> bool) (s : string) : bool :=
  Nat.leb 1 (String.length s) && allChars p s.

(** [z.string().min(lo).max(hi)] *)
Definition sized (lo hi : nat) (s : string) : bool :=
  Nat.leb lo (String.length s) && Nat.leb (String.length s) hi.

(** [/^[a-zA-Z0-9-]+$/] *)
Definition ownerName (s : string) : bool :=
  matchesClass (fun c => alnum c || Ascii.eqb c "-") s.

(** [/^[a-zA-Z0-9._-]+$/] *)
Definition repoName (s : string) : bool :=
  matchesClass
    (fun c => alnum c || Ascii.eqb c "." || Ascii.eqb c "_" || Ascii.eqb c "-")
    s.

(** [(p) => !p.includes('..') && !p.startsWith('/')] *)
Definition noTraversal (p : string) : bool :=
  negb (Js.includes p "..") && negb (Js.startsWith p "/").

Definition itemPath (p : string) : bool := sized 1 4096 p && noTraversal p.

(** [deleteItemsSchema.safeParse(body).success] *)
Definition deleteItemsSchema (req : DeleteRequest) : bool :=
  sized 1 39 (dl_owner req) && ownerName (dl_owner req)
  && (sized 1 100 (dl_repo req) && repoName (dl_repo req))
  && match dl_branch req with
     | Some b => sized 1 255 b
     | None => true
     end
  && (forallb (fun i => itemPath (di_path i)) (dl_items req)
      && Nat.leb 1 (List.length (dl_items req))).

End Schema.

(** The commit message (lines 182-198). *)
Definition deleteSummary (items : list DeleteItem) : string :=
  Js.join
    (firstn 10
       (map (fun i =>
               ((match di_type i with TDir => "dir" | TFile => "file" end)
                ++ ":" ++ di_path i)%string)
            items))
    ", ".

Definition commitMessage (items : list DeleteItem) : string :=
  ("Batch delete " ++ Js.ofNat (List.length items) ++ " item(s): "
   ++ deleteSummary items
   ++ (if Nat.ltb 10 (List.length items) then "â€¦" else EmptyString))%string.

Section Deleter.

Variable W : Type.
Variable remote : W -> forall c : Call, W * Resp (payload c).

Local Notation "'M'" := (Mon.M W).
Local Notation "'fetch'" := (Mon.fetch remote).
Local Open Scope handler_scope.

Definition fail (st : nat) (msg : string) : M HttpResponse :=
  Mon.ret {| status := st; body := BError msg |}.

(** The handler of delete-items (lines 27-253).  [caller] is what
    [getGitHubToken(req)] resolved to. *)
Definition deleteItems (req : DeleteRequest) (caller : option Profile)
  : M HttpResponse :=
  Mon.catch
    (if negb (Schema.deleteItemsSchema req) then
       Mon.ret {| status := 400; body := BInvalidInput |}
     else
       let owner := dl_owner req in
       let repo := dl_repo req in
       let items := dl_items req in
       match caller with
       | None => fail 401 "Unauthorized"
       | Some profile =>
         if negb (String.eqb owner (github_username profile)) then
           fail 403 "Unauthorized: can only access your own repositories"
         else
           let branchName :=
             match dl_branch req with
             | Some b => if Js.truthy b then b else "main"
             | None => "main"
             end in
           refResponse <- fetch (GetRef owner repo branchName) ;;
           match refResponse with
           | RespErr st _ => fail st "Failed to get branch reference"
           | RespOk currentCommitSha =>
           commitResponse <- fetch (GetCommit owner repo currentCommitSha) ;;
           match commitResponse with
           | RespErr st _ => fail st "Failed to get commit"
           | RespOk baseTreeSha =>
           treeResponse <- fetch (GetTree owner repo baseTreeSha) ;;
           match treeResponse with
           | RespErr st _ => fail st "Failed to get tree"
           | RespOk tree =>
           let newTree := TreeRewrite.newTree items tree in
           newTreeResponse <- fetch (CreateTree owner repo newTree) ;;
           match newTreeResponse with
           | RespErr st _ => fail st "Failed to create new tree"
           | RespOk newTreeSha =>
           newCommitResponse <-
             fetch (CreateCommit owner repo (commitMessage items)
                                 newTreeSha [currentCommitSha]) ;;
           match newCommitResponse with
           | RespErr st _ => fail st "Failed to create commit"
           | RespOk newCommitSha =>
           updateRefResponse <-
             fetch (UpdateRef owner repo branchName newCommitSha) ;;
           match updateRefResponse with
           | RespErr st _ => fail st "Failed to update branch"
           | RespOk _ =>
               Mon.ret {| status := 200;
                          body := BDeleted (List.length items) |}
           end end end end end end
       end)
    (fun e =>
       Mon.ret {| status := 500;
                  body := match e with
                          | Error m => BError m
                          | _ => BUncaught e
                          end |}).

End Deleter.

(* ===================================================================== *)
(** ** The dialog's validator (MoveItemsDialog.tsx, lines 79-101) *)
(* ===================================================================== *)

Record Validation := { invalid : bool; reason : option string }.

(** [dest === 'Root' ? '' : dest] *)
Definition resolve (dest : string) : string :=
  if String.eqb dest "Root" then EmptyString else dest.

(** The [for] loop over the selection: the first directory that refuses the
    destination decides. *)
Fixpoint firstCycle (files : list FileItem) (resolvedDest : string)
  : option string :=
  match files with
  | [] => None
  | file :: rest =>
      match type file with
      | TDir =>
          if String.eqb resolvedDest (path file) then
            Some "cannot move folder into itself"
          else if Js.startsWith resolvedDest (path file ++ "/") then
            Some "cannot move folder into its descendant"
          else firstCycle rest resolvedDest
      | TFile => firstCycle rest resolvedDest
      end
  end.

Definition isInvalidDestination (files : list FileItem) (currentPath dest : string)
  : Validation :=
  let resolvedDest := resolve dest in
  let normalizedCurrent := currentPath in   (* currentPath || '' *)
  if String.eqb resolvedDest normalizedCurrent then
    {| invalid := true; reason := Some "same as current folder" |}
  else
    match firstCycle files resolvedDest with
    | Some r => {| invalid := true; reason := Some r |}
    | None => {| invalid := false; reason := None |}
    end.

(* ===================================================================== *)
(** ** The delete dialog (DeleteConfirmDialog.tsx, lines 36-57) *)
(* ===================================================================== *)

Module DeleteDialog.

(** [files.filter(f => f.type === 'dir')
         .map(d => d.path.endsWith('/') ? d.path : `${d.path}/`)] *)
Definition dirPaths (files : list FileItem) : list string :=
  map (fun d => if Js.endsWith (path d) "/" then path d
                else (path d ++ "/")%string)
      (filter (fun f => ItemType_eqb (type f) TDir) files).

(** [files.filter(f => { if (f.type === 'dir') return true;
                        return !dirPaths.some(dp => f.path.startsWith(dp)); })] *)
Definition filtered (files : list FileItem) : list FileItem :=
  filter (fun f =>
            if ItemType_eqb (type f) TDir then true
            else negb (existsb (fun dp => Js.startsWith (path f) dp)
                               (dirPaths files)))
         files.

(** [filtered.map(i => ({ path: i.path, type: i.type }))] *)
Definition items (files : list FileItem) : list DeleteItem :=
  map (fun i => {| di_path := path i; di_type := type i |}) (filtered files).

(** The body handed to [delete-items]: [{ owner, repo, branch, items }]. *)
Definition request (owner repo branch : string) (files : list FileItem)
  : DeleteRequest :=
  {| dl_owner := owner; dl_repo := repo; dl_branch := Some branch;
     dl_items := items files |}.

End DeleteDialog.

(* ===================================================================== *)
(** ** Sorting an array of strings *)
(* ===================================================================== *)

Module JsArray.

(** [arr.sort()] on strings orders them by their code units; the order is
    total and antisymmetric, so the sorted array does not depend on how the
    run time sorts.  Here: by insertion. *)
Fixpoint insert (x : string) (l : list string) : list string :=
  match l with
  | [] => [x]
  | y :: rest => if String.leb x y then x :: y :: rest else y :: insert x rest
  end.

Fixpoint sort (l : list string) : list string :=
  match l with
  | [] => []
  | x :: rest => insert x (sort rest)
  end.

(** [[...new Set(arr)]]: the elements in the order of their first
    occurrence.  [seen] holds the elements met so far. *)
Fixpoint uniqueFrom (seen l : list string) : list string :=
  match l with
  | [] => []
  | x :: rest =>
      if existsb (String.eqb x) seen then uniqueFrom seen rest
      else x :: uniqueFrom (x :: seen) rest
  end.

Definition unique (l : list string) : list string := uniqueFrom [] l.

End JsArray.

(* ===================================================================== *)
(** ** The folder lister (get-repo-folders/index.ts) *)
(* ===================================================================== *)

(** The body of a folder-listing request. *)
Record FoldersRequest := {
  fo_owner : string;
  fo_repo : string;
  fo_ref : option string
}.

(** The two calls of the handler: the branch ref, under [git/ref/heads/],
    and the recursive tree. *)
Inductive FolderCall :=
| BranchRef (owner repo branch : string)
| RecursiveTree (owner repo sha : string).

(** What the handler reads of the tree response: [treeData.tree] and
    [treeData.truncated], either of which may be missing. *)
Record TreeData := {
  td_tree : option (list TreeEntry);
  td_truncated : option bool
}.

Definition folderPayload (c : FolderCall) : Type :=
  match c with
  | BranchRef _ _ _ => string        (* branchData.object.sha *)
  | RecursiveTree _ _ _ => TreeData
  end.

(** A response: ok with its body, or not ok with its status and status
    text. *)
Inductive FResp (A : Type) :=
| FOk (json : A)
| FFail (status : nat) (statusText : string).
Arguments FFail {A} status statusText.

Record FolderEvent := { fcall : FolderCall; fok : bool }.

Inductive FoldersBody :=
| FError (error : string)
| FUncaught (e : Exn)
| FFolders (folders : list string) (truncated : bool).

Record FoldersResponse := { f_status : nat; f_body : FoldersBody }.

(** [getFoldersSchema.parse(body)]: [owner] and [repo] have [min(1)]. *)
Definition getFoldersSchema (req : FoldersRequest) : bool :=
  Nat.leb 1 (String.length (fo_owner req))
  && Nat.leb 1 (String.length (fo_repo req)).

(** [(treeData.tree || []).filter(entry => entry.type === 'tree')
       .map(entry => entry.path).sort()] *)
Definition folders (data : TreeData) : list string :=
  JsArray.sort
    (map te_path
       (filter (fun entry => String.eqb (te_type entry) "tree")
          (match td_tree data with Some t => t | None => [] end))).

Section FolderLister.

Variable W : Type.
Variable remote : W -> forall c : FolderCall, W * FResp (folderPayload c).

(** The [try] block (lines 21-108): what it throws or returns, the
    provider's state and the calls issued. *)
Definition getRepoFoldersTry (req : FoldersRequest) (sess : Session) (w : W)
  : (Exn + FoldersResponse) * W * list FolderEvent :=
  if negb (getFoldersSchema req) then (inl ZodError, w, []) else
  let owner := fo_owner req in
  let repo := fo_repo req in
  match user sess with
  | None => (inr {| f_status := 401; f_body := FError "Unauthorized" |}, w, [])
  | Some _ =>
      if match profile sess with
         | Some pr => Js.truthy (github_access_token pr)
         | None => false
         end
      then
        let branch :=
          match fo_ref req with
          | Some r => if Js.truthy r then r else "main"
          | None => "main"
          end in
        match remote w (BranchRef owner repo branch) with
        | (w1, FFail _ statusText) =>
            (inl (Error ("Failed to get branch: " ++ statusText)), w1,
             [{| fcall := BranchRef owner repo branch; fok := false |}])
        | (w1, FOk treeSha) =>
            match remote w1 (RecursiveTree owner repo treeSha) with
            | (w2, FFail _ statusText) =>
                (inl (Error ("Failed to fetch tree: " ++ statusText)), w2,
                 [{| fcall := BranchRef owner repo branch; fok := true |};
                  {| fcall := RecursiveTree owner repo treeSha; fok := false |}])
            | (w2, FOk treeData) =>
                (inr {| f_status := 200;
                        f_body :=
                          FFolders (folders treeData)
                            (match td_truncated treeData with
                             | Some t => t
                             | None => false
                             end) |},
                 w2,
                 [{| fcall := BranchRef owner repo branch; fok := true |};
                  {| fcall := RecursiveTree owner repo treeSha; fok := true |}])
            end
        end
      else (inr {| f_status := 401;
                   f_body := FError "GitHub token not found" |}, w, [])
  end.

(** The handler, with its [catch] (lines 110-117). *)
Definition getRepoFolders (req : FoldersRequest) (sess : Session) (w : W)
  : FoldersResponse * W * list FolderEvent :=
  match getRepoFoldersTry req sess w with
  | (inr response, w1, tr) => (response, w1, tr)
  | (inl e, w1, tr) =>
      ({| f_status := 500;
          f_body := match e with
                    | Error m => FError m
                    | _ => FUncaught e
                    end |}, w1, tr)
  end.

End FolderLister.

(* ===================================================================== *)
(** ** The move dialog around its validator (MoveItemsDialog.tsx) *)
(* ===================================================================== *)

Module MoveDialog.

(** [fetchFolders] (lines 56-61): the options of the destination select,
    from the [folders] of the response. *)
Definition folderOptions (folders : list string) : list string :=
  let uniqueFolders := JsArray.sort (JsArray.unique folders) in
  "Root" :: uniqueFolders.

(** [handleMove] up to the invocation (lines 103-127): the body sent to
    [move-files], or nothing when the validation refuses. *)
Definition handleMove (files : list FileItem) (owner repo branch currentPath
                       destination : string) : option MoveRequest :=
  let resolvedDest := resolve destination in
  let validation := isInvalidDestination files currentPath destination in
  if invalid validation then None
  else Some {| mv_owner := owner; mv_repo := repo;
               mv_files := map (fun f => {| path := path f; sha := sha f;
                                            type := type f |}) files;
               mv_destination := resolvedDest;
               mv_branch := Some branch |}.

(** The [disabled] of the Move button (line 217), negated. *)
Definition canMove (files : list FileItem) (currentPath destination : string)
           (isMoving : bool) : bool :=
  negb (isMoving || negb (Js.truthy destination)
        || invalid (isInvalidDestination files currentPath destination)).

(** The description of the toast after the invocation (lines 139-146);
    [data] holds the [moved] and [skipped] of the response, when there is
    one. *)
Definition movedToast (files : list FileItem) (data : option (nat * nat))
  : string :=
  let moved :=
    match data with
    | Some (S m, _) => S m
    | _ => List.length files        (* data?.moved || files.length *)
    end in
  let skipped :=
    match data with
    | Some (_, s) => s
    | None => 0                     (* data?.skipped || 0 *)
    end in
  (Js.ofNat moved ++ " moved"
   ++ (if Nat.ltb 0 skipped then ", " ++ Js.ofNat skipped ++ " skipped"
       else EmptyString))%string.

End MoveDialog.

(* ===================================================================== *)
(** ** Vocabulary of the statements: the tree as described *)
(* ===================================================================== *)

Module TreeSpec.

(** The description, word for word: a path is excluded if it is a selected
    file path, or starts with a selected directory path followed by "/". *)
Definition excludedAsDescribed (items : list DeleteItem) (p : string) : bool :=
  existsb (fun i => ItemType_eqb (di_type i) TFile && String.eqb (di_path i) p)
          items
  || existsb (fun i => ItemType_eqb (di_type i) TDir
                       && Js.startsWith p (di_path i ++ "/"))
             items.

Definition treeAsDescribed (items : list DeleteItem) (tree : list TreeEntry)
  : list NewTreeEntry :=
  map TreeRewrite.project
    (filter (fun t => String.eqb (te_type t) "blob"
                      && negb (excludedAsDescribed items (te_path t)))
            tree).

(** The prefix a selected directory stands for: its path, closed by one "/"
    unless the path already ends with "/". *)
Definition dirPrefix (p : string) : string :=
  if Js.endsWith p "/" then p else (p ++ "/")%string.

Definition excluded (items : list DeleteItem) (p : string) : bool :=
  existsb (fun i => ItemType_eqb (di_type i) TFile && String.eqb (di_path i) p)
          items
  || existsb (fun i => ItemType_eqb (di_type i) TDir
                       && Js.startsWith p (dirPrefix (di_path i)))
             items.

Definition tree (items : list DeleteItem) (snapshot : list TreeEntry)
  : list NewTreeEntry :=
  map TreeRewrite.project
    (filter (fun t => String.eqb (te_type t) "blob"
                      && negb (excluded items (te_path t)))
            snapshot).

End TreeSpec.

(* ===================================================================== *)
(** ** Vocabulary of the statements: calls and traces *)
(* ===================================================================== *)

Definition isDelete (c : Call) : bool :=
  match c with DeleteContents _ _ _ _ _ _ => true | _ => false end.

Definition isPutTo (p : string) (c : Call) : bool :=
  match c with PutContents _ _ q _ _ _ _ => String.eqb q p | _ => false end.

Definition isGetOf (p : string) (c : Call) : bool :=
  match c with GetContents _ _ q _ => String.eqb q p | _ => false end.

Definition isMutation (c : Call) : bool :=
  match c with
  | PutContents _ _ _ _ _ _ _ | DeleteContents _ _ _ _ _ _
  | UpdateRef _ _ _ _ => true
  | _ => false
  end.

Definition isUpdateRef (c : Call) : bool :=
  match c with UpdateRef _ _ _ _ => true | _ => false end.

Definition isRead (c : Call) : bool :=
  match c with GetContents _ _ _ _ => true | _ => false end.

Section MoveRuns.

Variables owner repo branch : string.

(** The four ways a run of the single-item mover can go. *)
Inductive MoveRun (srcPath srcSha destPath : string)
  : Outcome MoveResult -> list Event -> Prop :=
| RunSkipped :
    srcPath = destPath ->
    MoveRun srcPath srcSha destPath
      (Ret {| mr_status := "skipped"; mr_reason := Some "same path" |}) []
| RunNoSource m :
    srcPath <> destPath ->
    MoveRun srcPath srcSha destPath (Throw (Error m))
      [ {| call := GetContents owner repo srcPath branch; ok := false |} ]
| RunNoCreate m msg content destSha probe :
    srcPath <> destPath ->
    MoveRun srcPath srcSha destPath (Throw (Error m))
      [ {| call := GetContents owner repo srcPath branch; ok := true |};
        {| call := GetContents owner repo destPath branch; ok := probe |};
        {| call := PutContents owner repo destPath msg content branch destSha;
           ok := false |} ]
| RunNoDelete m msg content destSha probe dmsg :
    srcPath <> destPath ->
    MoveRun srcPath srcSha destPath (Throw (Error m))
      [ {| call := GetContents owner repo srcPath branch; ok := true |};
        {| call := GetContents owner repo destPath branch; ok := probe |};
        {| call := PutContents owner repo destPath msg content branch destSha;
           ok := true |};
        {| call := DeleteContents owner repo srcPath dmsg srcSha branch;
           ok := false |} ]
| RunMoved msg content destSha probe dmsg :
    srcPath <> destPath ->
    MoveRun srcPath srcSha destPath
      (Ret {| mr_status := "moved"; mr_reason := None |})
      [ {| call := GetContents owner repo srcPath branch; ok := true |};
        {| call := GetContents owner repo destPath branch; ok := probe |};
        {| call := PutContents owner repo destPath msg content branch destSha;
           ok := true |};
        {| call := DeleteContents owner repo srcPath dmsg srcSha branch;
           ok := true |} ].

End MoveRuns.

(** The six provider steps of a delete batch. *)
Inductive Step := SRef | SCommit | STree | SNewTree | SNewCommit | SUpdateRef.

Definition pipeline : list Step :=
  [SRef; SCommit; STree; SNewTree; SNewCommit; SUpdateRef].

Definition stepOf (c : Call) : option Step :=
  match c with
  | GetRef _ _ _ => Some SRef
  | GetCommit _ _ _ => Some SCommit
  | GetTree _ _ _ => Some STree
  | CreateTree _ _ _ => Some SNewTree
  | CreateCommit _ _ _ _ _ => Some SNewCommit
  | UpdateRef _ _ _ _ => Some SUpdateRef
  | _ => None
  end.

Definition observed (tr : list Event) : list (option Step * bool) :=
  map (fun e => (stepOf (call e), ok e)) tr.

Definition passed (k : nat) : list (option Step * bool) :=
  map (fun s => (Some s, true)) (firstn k pipeline).

Definition isError (r : HttpResponse) : Prop :=
  match body r with
  | BError _ | BInvalidInput | BUncaught _ => True
  | _ => False
  end.

(** The ways a run of the deleter can go: refused before the first call,
    stopped at the step numbered [k] (from 0), or carried through. *)
Inductive DeleteRun (n : nat) : HttpResponse -> list (option Step * bool) -> Prop :=
| RunRefused st b :
    st = 400 \/ st = 401 \/ st = 403 ->
    isError {| status := st; body := b |} ->
    DeleteRun n {| status := st; body := b |} []
| RunStopped k s st msg :
    nth_error pipeline k = Some s ->
    DeleteRun n {| status := st; body := BError msg |}
              (passed k ++ [(Some s, false)])
| RunDone :
    DeleteRun n {| status := 200; body := BDeleted n |} (passed 6).

(* ===================================================================== *)
(** ** Vocabulary of the statements: the checks of the batch mover *)
(* ===================================================================== *)

(** The detail recorded for an item skipped by the folder test. *)
Definition skippedDetail (destination : string) (file : FileItem) : Detail :=
  {| src := path file;
     dest := if Js.truthy destination then destination else "root";
     d_status := match type file with
                 | TFile => "skipped (same folder)"
                 | TDir => "skipped (same parent)"
                 end |}.

(** The handler refuses the request at this item. *)
Definition rejects (destination : string) (file : FileItem) : bool :=
  match checkItem destination file with
  | RejectRequest => true
  | _ => false
  end.

(** Some item of the selection makes the handler refuse the request. *)
Definition serverRejects (files : list FileItem) (destination : string) : bool :=
  existsb (rejects destination) files.

(** The dialog's two cycle tests on one item. *)
Definition clientCycle (resolvedDest : string) (file : FileItem) : bool :=
  match type file with
  | TDir => String.eqb resolvedDest (path file)
            || Js.startsWith resolvedDest (path file ++ "/")
  | TFile => false
  end.

(* ===================================================================== *)
(** ** Vocabulary of the statements: a revision and what the lister reads *)
(* ===================================================================== *)

Definition refOf (it : ContentItem) : FileRef :=
  {| fr_path := ci_path it; fr_sha := ci_sha it |}.

Section Revisions.

(** What the contents endpoint answers for each path at one revision. *)
Variable dir : string -> Resp Contents.

(** A blob reachable under a directory: listed in it as a file, or
    reachable under an entry listed in it as a directory. *)
Inductive Reach : string -> FileRef -> Prop :=
| ReachFile d items it :
    dir d = RespOk (Listing items) -> In it items -> ci_type it = "file" ->
    Reach d (refOf it)
| ReachDir d items it x :
    dir d = RespOk (Listing items) -> In it items -> ci_type it = "dir" ->
    Reach (ci_path it) x ->
    Reach d x.

(** The listing under a directory nests at most [n] deep, a fetch that
    fails counting as a leaf, and every path fetched answers as a directory
    does. *)
Inductive Depth : nat -> string -> Prop :=
| DepthFailed n d st txt :
    dir d = RespErr st txt -> Depth (S n) d
| DepthListed n d items :
    dir d = RespOk (Listing items) ->
    (forall it, In it items -> ci_type it = "dir" -> Depth n (ci_path it)) ->
    Depth (S n) d.

(** What the entries [items] of one listing contribute. *)
Definition Under (items : list ContentItem) (x : FileRef) : Prop :=
  exists it, In it items
   /\ ((ci_type it = "file" /\ x = refOf it)
       \/ (ci_type it = "dir" /\ Reach (ci_path it) x)).

End Revisions.

Section ListerRuns.

Variable W : Type.
Variable remote : W -> forall c : Call, W * Resp (payload c).
Variables owner repo branch : string.
Variable Agrees : W -> Prop.

(** What a run of the lister, or of its loop, delivers. *)
Definition Lists (P : FileRef -> Prop) (r : Outcome (list FileRef) * W * list Event)
  : Prop :=
  exists res w' tr,
    r = (Ret res, w', tr) /\ Agrees w'
    /\ (forall x, In x res <-> P x)
    /\ Forall (fun e => isRead (call e) = true) tr.

(** The body of the lister's loop, as the source has it. *)
Definition loopBody (fuel : nat) (results : list FileRef) (item : ContentItem)
  : Mon.M W (list FileRef) :=
  if String.eqb (ci_type item) "file" then
    Mon.ret (results ++ [{| fr_path := ci_path item; fr_sha := ci_sha item |}])
  else if String.eqb (ci_type item) "dir" then
    Mon.bind (listFilesRecursively remote owner repo branch fuel (ci_path item))
             (fun sub => Mon.ret (results ++ sub))
  else Mon.ret results.

End ListerRuns.

(* ===================================================================== *)
(** ** A provider to run the handlers against, and runs on it *)
(* ===================================================================== *)

(** A small provider: it counts the calls it has answered, refuses the
    calls whose number is in [down], keeps one branch pointer, and serves
    fixed data otherwise. *)
Module Scripted.

Record World := { answered : nat; head : string }.

Record Script := {
  down : list nat;
  snapshot : list TreeEntry;
  contents : string -> option Contents
}.

Definition start : World := {| answered := 0; head := "c0" |}.

Definition remote (sc : Script) (w : World) (c : Call)
  : World * Resp (payload c) :=
  let w1 := {| answered := S (answered w); head := head w |} in
  if existsb (Nat.eqb (answered w)) (down sc) then (w1, RespErr 502 "down")
  else
    match c return World * Resp (payload c) with
    | GetRef _ _ _ => (w1, RespOk (head w))
    | GetCommit _ _ _ => (w1, RespOk "t0")
    | GetTree _ _ _ => (w1, RespOk (snapshot sc))
    | CreateTree _ _ _ => (w1, RespOk "t1")
    | CreateCommit _ _ _ _ _ => (w1, RespOk "c1")
    | UpdateRef _ _ _ s =>
        ({| answered := S (answered w); head := s |}, RespOk tt)
    | GetContents _ _ p _ =>
        match contents sc p with
        | Some body => (w1, RespOk body)
        | None => (w1, RespErr 404 "Not Found")
        end
    | PutContents _ _ _ _ _ _ _ => (w1, RespOk tt)
    | DeleteContents _ _ _ _ _ _ => (w1, RespOk tt)
    end.

(** A repository with [a/b.txt], [docs/x.md] and [docs/sub/y.md]. *)
Definition files (p : string) : option Contents :=
  if String.eqb p "a/b.txt" then Some (FileObject "QQ==" "s1")
  else if String.eqb p "docs/x.md" then Some (FileObject "WA==" "s2")
  else if String.eqb p "docs/sub/y.md" then Some (FileObject "WQ==" "s3")
  else if String.eqb p "docs" then
    Some (Listing [ {| ci_type := "file"; ci_path := "docs/x.md"; ci_sha := "s2" |};
                    {| ci_type := "dir"; ci_path := "docs/sub"; ci_sha := "d1" |} ])
  else if String.eqb p "docs/sub" then
    Some (Listing [ {| ci_type := "file"; ci_path := "docs/sub/y.md";
                       ci_sha := "s3" |} ])
  else None.

Definition tree : list TreeEntry :=
  [ {| te_path := "a"; te_mode := "040000"; te_type := "tree"; te_sha := "d0";
       te_size := None; te_url := "u0" |};
    {| te_path := "a/b.txt"; te_mode := "100644"; te_type := "blob";
       te_sha := "s1"; te_size := Some 1; te_url := "u1" |};
    {| te_path := "docs"; te_mode := "040000"; te_type := "tree"; te_sha := "d2";
       te_size := None; te_url := "u2" |};
    {| te_path := "docs/x.md"; te_mode := "100644"; te_type := "blob";
       te_sha := "s2"; te_size := Some 1; te_url := "u3" |};
    {| te_path := "docs/sub/y.md"; te_mode := "100644"; te_type := "blob";
       te_sha := "s3"; te_size := Some 1; te_url := "u4" |} ].

(** Every call is answered, but for those numbered in [d]. *)
Definition script (d : list nat) : Script :=
  {| down := d; snapshot := tree; contents := files |}.

End Scripted.

Module SlashExample.

Definition items : list DeleteItem := [ {| di_path := "old/"; di_type := TDir |} ].

Definition snapshot : list TreeEntry :=
  [ {| te_path := "old/a.txt"; te_mode := "100644"; te_type := "blob";
       te_sha := "s1"; te_size := Some 3; te_url := "u" |} ].

End SlashExample.

Module CreateFails.

(** The third call, the create/update of the destination, is refused. *)
Definition run :=
  moveSingleFile (Scripted.remote (Scripted.script [2])) "o" "r" "main"
    "a/b.txt" "s1" "c/b.txt" Scripted.start.

Definition put : Event :=
  {| call := PutContents "o" "r" "c/b.txt" "Move a/b.txt to c/b.txt"
                         (Some "QQ==") "main" None;
     ok := false |}.

End CreateFails.

Module TreeCreationFails.

Definition request : DeleteRequest :=
  {| dl_owner := "alice"; dl_repo := "site"; dl_branch := None;
     dl_items := [ {| di_path := "docs"; di_type := TDir |};
                   {| di_path := "a/b.txt"; di_type := TFile |} ] |}.

Definition alice : Profile :=
  {| github_username := "alice"; github_access_token := "t" |}.

(** The fourth call, the creation of the tree, is refused. *)
Definition run :=
  deleteItems (Scripted.remote (Scripted.script [3])) request (Some alice)
    Scripted.start.

Definition refused : Event :=
  {| call := CreateTree "alice" "site" []; ok := false |}.

End TreeCreationFails.

Module DeleteSucceeds.

(** Every call is answered: a selected directory with two blobs under it
    and a selected file. *)
Definition run :=
  deleteItems (Scripted.remote (Scripted.script []))
    TreeCreationFails.request (Some TreeCreationFails.alice) Scripted.start.

End DeleteSucceeds.

Module SameParent.

(** The directory [docs] lies in the root, which is also the destination. *)
Definition request : MoveRequest :=
  {| mv_owner := "alice"; mv_repo := "site";
     mv_files := [ {| path := "docs"; sha := "d2"; type := TDir |} ];
     mv_destination := EmptyString; mv_branch := None |}.

Definition session : Session :=
  {| user := Some "u1";
     profile := Some {| github_username := "alice";
                        github_access_token := "t" |} |}.

Definition run :=
  moveFiles (Scripted.remote (Scripted.script [])) 8 request session
    Scripted.start.

End SameParent.

Module SameFolder.

(** The file [a/b.txt], selected in folder [a], with [a] as destination. *)
Definition selection : list FileItem :=
  [ {| path := "a/b.txt"; sha := "s1"; type := TFile |} ].

Definition request : MoveRequest :=
  {| mv_owner := "alice"; mv_repo := "site"; mv_files := selection;
     mv_destination := "a"; mv_branch := None |}.

Definition run :=
  moveFiles (Scripted.remote (Scripted.script [])) 8 request
    SameParent.session Scripted.start.

End SameFolder.

Module IntoItself.

(** The directory [docs], selected in the root, with [docs] as destination. *)
Definition selection : list FileItem :=
  [ {| path := "docs"; sha := "d2"; type := TDir |} ].

End IntoItself.

Module EarlierItem.

(** A file listed before a directory that is moved into itself. *)
Definition request : MoveRequest :=
  {| mv_owner := "alice"; mv_repo := "site";
     mv_files := [ {| path := "a/b.txt"; sha := "s1"; type := TFile |};
                   {| path := "docs"; sha := "d2"; type := TDir |} ];
     mv_destination := "docs"; mv_branch := None |}.

Definition run :=
  moveFiles (Scripted.remote (Scripted.script [])) 8 request
    SameParent.session Scripted.start.

End EarlierItem.

Module Traversal.

(** A provider on which every path holds a file. *)
Definition anyFile : Scripted.Script :=
  {| Scripted.down := []; Scripted.snapshot := [];
     Scripted.contents := fun _ => Some (FileObject "QQ==" "s0") |}.

(** A path that climbs out of the repository. *)
Definition request : MoveRequest :=
  {| mv_owner := "alice"; mv_repo := "site";
     mv_files := [ {| path := "../x"; sha := "s9"; type := TFile |} ];
     mv_destination := "a"; mv_branch := None |}.

Definition run :=
  moveFiles (Scripted.remote anyFile) 8 request SameParent.session
    Scripted.start.

End Traversal.

Module CrossOwner.

(** The caller is [bob]; the repository is [alice]'s. *)
Definition bob : Profile :=
  {| github_username := "bob"; github_access_token := "t" |}.

Definition session : Session := {| user := Some "u2"; profile := Some bob |}.

Definition request : MoveRequest :=
  {| mv_owner := "alice"; mv_repo := "site";
     mv_files := [ {| path := "a/b.txt"; sha := "s1"; type := TFile |} ];
     mv_destination := "c"; mv_branch := None |}.

Definition run :=
  moveFiles (Scripted.remote (Scripted.script [])) 8 request session
    Scripted.start.

Definition deletion :=
  deleteItems (Scripted.remote (Scripted.script []))
    TreeCreationFails.request (Some bob) Scripted.start.

End CrossOwner.

Module Revision.

(** The revision the scripted provider serves when no call is refused. *)
Definition dir (p : string) : Resp Contents :=
  match Scripted.files p with
  | Some body => RespOk body
  | None => RespErr 404 "Not Found"
  end.

End Revision.

(* ===================================================================== *)
(** ** Vocabulary of the statements: answers of the provider along a run *)
(* ===================================================================== *)



Section Replay.

Variable W : Type.
Variable remote : W -> forall c : Call, W * Resp (payload c).

(** The provider's state after it has answered [calls], oldest first. *)
Definition replay (w : W) (calls : list Call) : W :=
  fold_left (fun w c => fst (remote w c)) calls w.

(** What the provider answers to [c] once it has answered [before]. *)
Definition answer (w : W) (before : list Call) (c : Call) : Resp (payload c) :=
  snd (remote (replay w before) c).

End Replay.

(** [branch || 'main'] of the deleter. *)
Definition branchName (req : DeleteRequest) : string :=
  match dl_branch req with
  | Some b => if Js.truthy b then b else "main"
  | None => "main"
  end.

(** A path the delete schema is meant to keep out. *)
Definition unsafePath (p : string) : Prop :=
  p = EmptyString \/ In ".." (Js.split p "/") \/ Js.startsWith p "/" = true.

(** The selection of a dialog as items of a delete request, nothing
    removed. *)
Definition asItems (files : list FileItem) : list DeleteItem :=
  map (fun i => {| di_path := path i; di_type := type i |}) files.

Module Nested.

(** A directory, a file under it and a file beside it. *)
Definition selection : list FileItem :=
  [ {| path := "docs"; sha := "d2"; type := TDir |};
    {| path := "docs/x.md"; sha := "s2"; type := TFile |};
    {| path := "a/b.txt"; sha := "s1"; type := TFile |} ].

End Nested.

(** The order of [arr.sort()] on strings. *)
Definition lebP (a b : string) : Prop := String.leb a b = true.

(** [entry.type === 'tree'] *)
Definition isTree (entry : TreeEntry) : bool := String.eqb (te_type entry) "tree".

(** [treeData.tree || []] *)
Definition entries (data : TreeData) : list TreeEntry :=
  match td_tree data with Some t => t | None => [] end.

Module FolderProvider.

(** A provider of the folder lister without state: the ref is answered
    unless [refDown], the tree is answered with [data] unless [treeDown]. *)
Record Script := { refDown : bool; treeDown : bool; data : TreeData }.

Definition remote (sc : Script) (w : unit) (c : FolderCall)
  : unit * FResp (folderPayload c) :=
  match c return unit * FResp (folderPayload c) with
  | BranchRef _ _ _ =>
      if refDown sc then (w, FFail 404 "Not Found") else (w, FOk "c0")
  | RecursiveTree _ _ _ =>
      if treeDown sc then (w, FFail 502 "Bad Gateway") else (w, FOk (data sc))
  end.

Definition site : TreeData :=
  {| td_tree := Some Scripted.tree; td_truncated := None |}.

Definition request : FoldersRequest :=
  {| fo_owner := "alice"; fo_repo := "site"; fo_ref := None |}.

End FolderProvider.

Module FolderRuns.

Definition up : FolderProvider.Script :=
  {| FolderProvider.refDown := false; FolderProvider.treeDown := false;
     FolderProvider.data := FolderProvider.site |}.

Definition treeFails : FolderProvider.Script :=
  {| FolderProvider.refDown := false; FolderProvider.treeDown := true;
     FolderProvider.data := FolderProvider.site |}.

Definition listed :=
  getRepoFolders (FolderProvider.remote up) FolderProvider.request
    SameParent.session tt.

Definition failed :=
  getRepoFolders (FolderProvider.remote treeFails) FolderProvider.request
    SameParent.session tt.

End FolderRuns.


(** Every call a computation issues satisfies [P], however it ends. *)
Definition Emits {W A} (P : Event -> Prop) (m : Mon.M W A) : Prop :=
  forall w, Forall P (snd (m w)).

(** Whatever a computation returns satisfies [Q]. *)
Definition Returns {W A} (Q : A -> Prop) (m : Mon.M W A) : Prop :=
  forall w a w' tr, m w = (Ret a, w', tr) -> Q a.

(** The details with status "moved", and the others. *)
Definition isMoved (d : Detail) : bool := String.eqb (d_status d) "moved".

Definition countMoved (ds : list Detail) : nat :=
  List.length (filter isMoved ds).

Definition countSkipped (ds : list Detail) : nat :=
  List.length (filter (fun d => negb (isMoved d)) ds).

(** The four statuses a detail can carry. *)
Definition knownStatus (d : Detail) : Prop :=
  d_status d = "moved" \/ d_status d = "skipped"
  \/ d_status d = "skipped (same folder)"
  \/ d_status d = "skipped (same parent)".

(** The counters agree with the details. *)
Definition Counted (t : Tally) : Prop :=
  movedCount t = countMoved (details t)
  /\ skippedCount t = countSkipped (details t)
  /\ Forall knownStatus (details t).

Module MoveRuns.

(** One file moved out of folder [a] into folder [c], as the dialog
    sends it. *)
Definition selection : list FileItem :=
  [ {| path := "a/b.txt"; sha := "s1"; type := TFile |} ].

Definition request : MoveRequest :=
  {| mv_owner := "alice"; mv_repo := "site"; mv_files := selection;
     mv_destination := "c"; mv_branch := Some "main" |}.

Definition run :=
  moveFiles (Scripted.remote (Scripted.script [])) 8 request
    SameParent.session Scripted.start.

(** The directory [docs] moved into folder [c]. *)
Definition dirRequest : MoveRequest :=
  {| mv_owner := "alice"; mv_repo := "site";
     mv_files := IntoItself.selection;
     mv_destination := "c"; mv_branch := Some "main" |}.

Definition dirRun :=
  moveFiles (Scripted.remote (Scripted.script [])) 8 dirRequest
    SameParent.session Scripted.start.

(** The same, the listing of [docs] refused. *)
Definition unlistedRun :=
  moveFiles (Scripted.remote (Scripted.script [0])) 8 dirRequest
    SameParent.session Scripted.start.

End MoveRuns.

(** A write, if it is one, was answered ok. *)
Definition writeOk (e : Event) : Prop :=
  isMutation (call e) = true -> ok e = true.

(** When a computation returns, every write it issued was answered ok. *)
Definition Clean {W A} (m : Mon.M W A) : Prop :=
  forall w a w' tr, m w = (Ret a, w', tr) -> Forall writeOk tr.

(* ===================================================================== *)
(** ** The embedding on small inputs *)
(* ===================================================================== *)

Example containingFolder_nested : containingFolder "a/b/c.txt" = "a/b".
Proof. reflexivity. Qed.

Example containingFolder_root : containingFolder "readme.md" = EmptyString.
Proof. reflexivity. Qed.

Example baseName_nested : baseName "a/b/c.txt" = "c.txt".
Proof. reflexivity. Qed.

Example under_root : under EmptyString "b.txt" = "b.txt".
Proof. reflexivity. Qed.

Example under_folder : under "c" "b.txt" = "c/b.txt".
Proof. reflexivity. Qed.

Example check_descendant :
  checkItem "docs/sub" {| path := "docs"; sha := "d2"; type := TDir |}
  = RejectRequest.
Proof. reflexivity. Qed.

Example check_sibling :
  checkItem "docs2" {| path := "docs"; sha := "d2"; type := TDir |} = Proceed.
Proof. reflexivity. Qed.

Example commitMessage_two :
  commitMessage [ {| di_path := "docs"; di_type := TDir |};
                  {| di_path := "a/b.txt"; di_type := TFile |} ]
  = "Batch delete 2 item(s): dir:docs, file:a/b.txt".
Proof. reflexivity. Qed.

(** Five blobs, three of them under [docs]; deleting the directory [docs]
    and the file [a/b.txt] leaves one. *)
Example newTree_five_blobs :
  TreeRewrite.newTree
    [ {| di_path := "docs"; di_type := TDir |};
      {| di_path := "a/b.txt"; di_type := TFile |} ]
    (Scripted.tree
     ++ [ {| te_path := "docs/z.md"; te_mode := "100644"; te_type := "blob";
             te_sha := "s4"; te_size := Some 1; te_url := "u5" |};
          {| te_path := "docs2/k.md"; te_mode := "100755"; te_type := "blob";
             te_sha := "s5"; te_size := Some 2; te_url := "u6" |} ])
  = [ {| nt_path := "docs2/k.md"; nt_mode := "100755"; nt_type := "blob";
         nt_sha := "s5" |} ].
Proof. reflexivity. Qed.

(* ===================================================================== *)
(** ** The tree rewrite against its description *)
(* ===================================================================== *)

Lemma existsb_map {A B} (f : A -> B) (p : B -> bool) (l : list A) :
  existsb p (map f l) = existsb (fun x => p (f x)) l.
Proof.
  induction l as [|x l IH]; simpl; [reflexivity|]. now rewrite IH.
Qed.

Lemma existsb_pointwise {A} (p q : A -> bool) (l : list A) :
  (forall x, p x = q x) -> existsb p l = existsb q l.
Proof.
  intros H. induction l as [|x l IH]; simpl; [reflexivity|].
  now rewrite H, IH.
Qed.

Lemma existsb_filter {A} (q p : A -> bool) (l : list A) :
  existsb p (filter q l) = existsb (fun x => q x && p x) l.
Proof.
  induction l as [|x l IH]; simpl; [reflexivity|].
  destruct (q x); simpl; now rewrite IH.
Qed.

Lemma filter_filter {A} (p q : A -> bool) (l : list A) :
  filter q (filter p l) = filter (fun x => q x && p x) l.
Proof.
  induction l as [|x l IH]; simpl; [reflexivity|].
  destruct (p x); simpl.
  - destruct (q x); simpl; now rewrite IH.
  - rewrite andb_false_r. exact IH.
Qed.

Lemma keep_excluded (items : list DeleteItem) (t : TreeEntry) :
  TreeRewrite.keep items t = negb (TreeSpec.excluded items (te_path t)).
Proof.
  unfold TreeRewrite.keep, TreeSpec.excluded, TreeRewrite.has,
    TreeRewrite.dirPaths, TreeRewrite.filePaths.
  rewrite !existsb_map, !existsb_filter, negb_orb, andb_comm.
  f_equal; f_equal; apply existsb_pointwise; intros i;
    try reflexivity; now rewrite String.eqb_sym.
Qed.

Lemma newTree_tree (items : list DeleteItem) (snapshot : list TreeEntry) :
  TreeRewrite.newTree items snapshot = TreeSpec.tree items snapshot.
Proof.
  unfold TreeRewrite.newTree, TreeSpec.tree.
  rewrite filter_filter. f_equal. apply filter_ext. intros t.
  now rewrite keep_excluded.
Qed.

(** Membership reading of [TreeSpec.tree]. *)
Lemma newTree_membership (items : list DeleteItem) (snapshot : list TreeEntry)
      (e : NewTreeEntry) :
  In e (TreeRewrite.newTree items snapshot) <->
  exists t, In t snapshot /\ e = TreeRewrite.project t
            /\ te_type t = "blob"
            /\ (forall i, In i items -> di_type i = TFile ->
                          di_path i <> te_path t)
            /\ (forall i, In i items -> di_type i = TDir ->
                          Js.startsWith (te_path t)
                            (TreeSpec.dirPrefix (di_path i)) = false).
Proof.
  rewrite newTree_tree. unfold TreeSpec.tree.
  rewrite in_map_iff. split.
  - intros (t & <- & Hin). apply filter_In in Hin as [Hin Hk].
    apply andb_true_iff in Hk as [Hb Hx]. apply String.eqb_eq in Hb.
    apply negb_true_iff in Hx. unfold TreeSpec.excluded in Hx.
    apply orb_false_iff in Hx as [Hf Hd].
    exists t. repeat split; trivial.
    + intros i Hi Hty Heq.
      assert (existsb (fun i => ItemType_eqb (di_type i) TFile
                                && String.eqb (di_path i) (te_path t)) items
              = true) as C.
      { apply existsb_exists. exists i. split; [exact Hi|].
        rewrite Hty, Heq, String.eqb_refl. reflexivity. }
      congruence.
    + intros i Hi Hty.
      destruct (Js.startsWith (te_path t) (TreeSpec.dirPrefix (di_path i)))
        eqn:Hs; [|reflexivity].
      assert (existsb (fun i => ItemType_eqb (di_type i) TDir
                                && Js.startsWith (te_path t)
                                     (TreeSpec.dirPrefix (di_path i))) items
              = true) as C.
      { apply existsb_exists. exists i. split; [exact Hi|].
        rewrite Hty, Hs. reflexivity. }
      congruence.
  - intros (t & Hin & -> & Hb & Hf & Hd). exists t. split; [reflexivity|].
    apply filter_In. split; [exact Hin|].
    apply andb_true_iff. split; [now apply String.eqb_eq|].
    apply negb_true_iff. unfold TreeSpec.excluded. apply orb_false_iff. split.
    + apply not_true_is_false. intros C. apply existsb_exists in C as (i & Hi & C).
      apply andb_true_iff in C as [Hty Heq]. apply String.eqb_eq in Heq.
      destruct (di_type i) eqn:E; [|discriminate]. exact (Hf i Hi E Heq).
    + apply not_true_is_false. intros C. apply existsb_exists in C as (i & Hi & C).
      apply andb_true_iff in C as [Hty Hs].
      destruct (di_type i) eqn:E; [discriminate|].
      rewrite (Hd i Hi E) in Hs. discriminate.
Qed.

(** C1, as amended.  The tree submitted is the snapshot, in its order,
    restricted to the entries of blob type whose path is neither a selected
    file path nor under the prefix of a selected directory, each reduced to
    its path, mode, type and identifier; the prefix of a selected directory
    is its path followed by "/", or the path itself when it already ends
    with "/". *)
Theorem newTree_is_filtered_snapshot :
  forall (items : list DeleteItem) (snapshot : list TreeEntry),
    TreeRewrite.newTree items snapshot = TreeSpec.tree items snapshot
    /\ forall e : NewTreeEntry,
         In e (TreeRewrite.newTree items snapshot) <->
         exists t, In t snapshot
           /\ e = {| nt_path := te_path t; nt_mode := te_mode t;
                     nt_type := te_type t; nt_sha := te_sha t |}
           /\ te_type t = "blob"
           /\ (forall i, In i items -> di_type i = TFile ->
                         di_path i <> te_path t)
           /\ (forall i, In i items -> di_type i = TDir ->
                         Js.startsWith (te_path t)
                           (TreeSpec.dirPrefix (di_path i)) = false).
Proof.
  intros items snapshot. split.
  - apply newTree_tree.
  - intros e. apply newTree_membership.
Qed.

(** C1, as stated, fails on a selected directory written with its closing
    slash, which the request schema accepts: the entry under it is removed,
    although its path does not start with the selected path followed by one
    more "/". *)
Lemma newTree_not_as_described :
  forallb (fun i => Schema.itemPath (di_path i)) SlashExample.items = true
  /\ TreeRewrite.newTree SlashExample.items SlashExample.snapshot = []
  /\ TreeSpec.treeAsDescribed SlashExample.items SlashExample.snapshot
     = [ {| nt_path := "old/a.txt"; nt_mode := "100644";
            nt_type := "blob"; nt_sha := "s1" |} ]
  /\ TreeRewrite.newTree SlashExample.items SlashExample.snapshot
     <> TreeSpec.treeAsDescribed SlashExample.items SlashExample.snapshot.
Proof.
  repeat split; discriminate.
Qed.

(* ===================================================================== *)
(** ** The single-item mover: delete only after create *)
(* ===================================================================== *)

Section MoverFacts.

Variable W : Type.
Variable remote : W -> forall c : Call, W * Resp (payload c).
Variables owner repo branch : string.

Lemma moveSingleFile_runs (srcPath srcSha destPath : string) (w : W) :
  MoveRun owner repo branch srcPath srcSha destPath
    (fst (fst (moveSingleFile remote owner repo branch srcPath srcSha destPath w)))
    (snd (moveSingleFile remote owner repo branch srcPath srcSha destPath w)).
Proof.
  unfold moveSingleFile.
  destruct (String.eqb srcPath destPath) eqn:E.
  - apply String.eqb_eq in E. simpl. now constructor.
  - apply String.eqb_neq in E.
    unfold Mon.bind, Mon.fetch, Mon.ret, Mon.throw.
    destruct (remote w (GetContents owner repo srcPath branch)) as [w1 [srcData|st1 t1]];
      simpl; [|now constructor].
    destruct (remote w1 (GetContents owner repo destPath branch)) as [w2 r2]; simpl.
    match goal with
    | |- context [remote w2 ?c] => destruct (remote w2 c) as [w3 [[]|st3 t3]]
    end; simpl; [|now constructor].
    match goal with
    | |- context [remote w3 ?c] => destruct (remote w3 c) as [w4 [[]|st4 t4]]
    end; simpl.
    + now constructor.
    + now constructor.
Qed.

End MoverFacts.

(** Splitting a trace written out in full at one of its events. *)
Ltac split_trace :=
  repeat match goal with
         | H : _ = ?pre ++ _ :: _ |- _ =>
             destruct pre; simpl in H; inversion H; clear H; subst
         end.

Ltac in_cases :=
  repeat match goal with
         | H : In _ (_ :: _) |- _ => destruct H as [H|H]; [subst|]
         | H : In _ [] |- _ => destruct H
         end.

(** C3.  In every run of the single-item mover, a delete request is issued
    only after a create/update of the destination that succeeded; and when
    the fetch of the source or the create/update of the destination fails,
    the mover throws and no delete request is issued at all. *)
Theorem moveSingleFile_delete_after_create :
  forall (W : Type) (remote : W -> forall c : Call, W * Resp (payload c))
         (owner repo branch srcPath srcSha destPath : string)
         (w w' : W) (out : Outcome MoveResult) (tr : list Event),
    moveSingleFile remote owner repo branch srcPath srcSha destPath w
    = (out, w', tr) ->
    (forall pre e post,
        tr = pre ++ e :: post -> isDelete (call e) = true ->
        exists q, In q pre /\ isPutTo destPath (call q) = true /\ ok q = true)
    /\ (forall q,
           In q tr -> ok q = false ->
           isGetOf srcPath (call q) = true \/ isPutTo destPath (call q) = true ->
           (exists m, out = Throw (Error m))
           /\ forall e, In e tr -> isDelete (call e) = false).
Proof.
  intros W remote owner repo branch srcPath srcSha destPath w w' out tr Hrun.
  pose proof (moveSingleFile_runs remote owner repo branch srcPath srcSha
                destPath w) as R.
  rewrite Hrun in R. simpl in R.
  assert (forall p q, p <> q -> String.eqb q p = false) as Hne.
  { intros p q Hpq. apply String.eqb_neq. congruence. }
  split.
  - intros pre e post Htr Hdel.
    inversion R; subst; split_trace; simpl in Hdel; try discriminate;
      (eexists; split; [right; right; left; reflexivity|];
       simpl; now rewrite String.eqb_refl).
  - intros q Hq Hok Hkind.
    inversion R; subst; in_cases; simpl in Hok, Hkind; try discriminate;
      try (split; [eauto|]; intros e He; in_cases; reflexivity);
      destruct Hkind as [K|K]; try discriminate;
      match goal with
      | D : _ <> _ |- _ => rewrite (Hne _ _ D) in K; discriminate
      end.
Qed.

Lemma moveSingleFile_delete_after_create_witness :
  In CreateFails.put (snd CreateFails.run)
  /\ forall e, In e (snd CreateFails.run) -> isDelete (call e) = false.
Proof.
  split.
  - vm_compute. tauto.
  - apply (proj2 (@moveSingleFile_delete_after_create
                    _ (Scripted.remote (Scripted.script [2])) "o" "r" "main"
                    "a/b.txt" "s1" "c/b.txt" Scripted.start
                    (snd (fst CreateFails.run)) (fst (fst CreateFails.run))
                    (snd CreateFails.run) eq_refl)
                 CreateFails.put).
    + vm_compute. tauto.
    + reflexivity.
    + right. reflexivity.
Defined.

(* ===================================================================== *)
(** ** The deleter's pipeline *)
(* ===================================================================== *)

Section DeleterFacts.

Variable W : Type.
Variable remote : W -> forall c : Call, W * Resp (payload c).

(** What an observer of the branch sees of the provider's state. *)
Variable Obs : Type.
Variable tip : W -> Obs.

(** The provider moves the branch only on a ref update or a write through
    the contents endpoint. *)
Hypothesis frame :
  forall w c, isMutation c = false -> tip (fst (remote w c)) = tip w.

Ltac step_remote :=
  match goal with
  | |- context [remote ?w ?c] =>
      let E := fresh "E" in
      let F := fresh "F" in
      pose proof (frame w c) as F;
      destruct (remote w c) as [? [?|? ?]] eqn:E; simpl in F |- *;
      try specialize (F eq_refl)
  end.

Ltac refused :=
  do 3 eexists; split; [reflexivity|]; split;
  [constructor; [auto | exact I] | reflexivity].

Ltac stopped k :=
  do 3 eexists; split; [reflexivity|]; split;
  [apply (RunStopped _ k); reflexivity | intros _; congruence].

Ltac updated :=
  let H := fresh "H" in
  let C := fresh "C" in
  intros H;
  match type of H with
  | forall e, In e ?tr -> _ =>
      pose proof (H (last tr {| call := GetRef "o" "r" "b"; ok := true |})) as C
  end;
  simpl in C;
  assert (true = false) by (apply C; tauto);
  discriminate.

Lemma deleteItems_runs (req : DeleteRequest) (caller : option Profile) (w : W) :
  exists resp w' tr,
    deleteItems remote req caller w = (Ret resp, w', tr)
    /\ DeleteRun (List.length (dl_items req)) resp (observed tr)
    /\ ((forall e, In e tr -> isUpdateRef (call e) = false) -> tip w' = tip w).
Proof.
  unfold deleteItems, Mon.catch, fail.
  destruct (Schema.deleteItemsSchema req); simpl; [|refused].
  destruct caller as [pr|]; simpl; [|refused].
  destruct (String.eqb (dl_owner req) (github_username pr)); simpl; [|refused].
  unfold Mon.bind, Mon.fetch, Mon.ret.
  step_remote; [|stopped 0].
  step_remote; [|stopped 1].
  step_remote; [|stopped 2].
  step_remote; [|stopped 3].
  step_remote; [|stopped 4].
  step_remote.
  - do 3 eexists. split; [reflexivity|]. split; [apply RunDone|]. updated.
  - do 3 eexists. split; [reflexivity|]. split;
      [apply (RunStopped _ 5); reflexivity|]. updated.
Qed.

(** From the observation of a trace to the trace, event by event. *)
Ltac explode tr :=
  repeat match goal with
         | H : observed tr = _ |- _ => unfold observed in H
         | H : map _ ?l = _ |- _ =>
             destruct l; simpl in H; try discriminate H;
             try (injection H as ? H)
         | H : (_, _) = (_, _) |- _ => injection H as ? ?
         end.

Lemma updateRef_step (c : Call) :
  isUpdateRef c = true <-> stepOf c = Some SUpdateRef.
Proof. destruct c; simpl; split; congruence. Qed.

Lemma other_step (c : Call) (s : Step) :
  stepOf c = Some s -> s <> SUpdateRef -> isUpdateRef c = false.
Proof. destruct c; simpl; congruence. Qed.

Lemma mutation_step (c : Call) (s : Step) :
  stepOf c = Some s -> isMutation c = true -> isUpdateRef c = true.
Proof. destruct c; simpl; congruence. Qed.

Ltac no_update :=
  let e' := fresh "e" in
  let He' := fresh "He" in
  intros e' He'; in_cases; (eapply other_step; [eassumption|discriminate]).

(** C2.  In every run of the deleter: the ref update is the only call issued
    that can move the branch; it is issued only after the ref fetch, the
    commit fetch, the tree fetch, the tree creation and the commit creation
    have all succeeded, and nothing follows it; and when one of those five
    steps fails the handler returns an error response, has issued no ref
    update, and leaves the branch where it was. *)
Theorem refUpdate_only_after_all_steps :
  forall (req : DeleteRequest) (caller : option Profile)
         (w w' : W) (out : Outcome HttpResponse) (tr : list Event),
    deleteItems remote req caller w = (out, w', tr) ->
    (forall e, In e tr -> isMutation (call e) = true ->
               isUpdateRef (call e) = true)
    /\ (forall pre e post,
           tr = pre ++ e :: post -> isUpdateRef (call e) = true ->
           observed pre = passed 5 /\ post = [])
    /\ (forall e,
           In e tr -> ok e = false -> isUpdateRef (call e) = false ->
           exists resp,
             out = Ret resp /\ isError resp
             /\ (forall e', In e' tr -> isUpdateRef (call e') = false)
             /\ tip w' = tip w).
Proof.
  intros req caller w w' out tr Hrun.
  destruct (deleteItems_runs req caller w) as (resp & w1 & tr1 & Hr & Hshape & Htip).
  rewrite Hrun in Hr. injection Hr as -> -> ->.
  inversion Hshape as [st b Hst Herr Hresp Hobs
                      | k s st msg Hk Hresp Hobs
                      | Hresp Hobs]; subst resp.
  - destruct tr1; [|discriminate Hobs].
    split; [|split].
    + intros e [].
    + intros pre e post Hsplit. destruct pre; discriminate.
    + intros e [].
  - destruct k as [|[|[|[|[|[|k]]]]]]; simpl in Hk;
      try (destruct k; discriminate Hk); injection Hk as <-;
      unfold passed in Hobs; simpl in Hobs; symmetry in Hobs;
      explode tr1;
      (split; [|split]);
      try (intros ev Hev Hm; in_cases; eapply mutation_step; eassumption);
      try (intros pre ev post Hsplit Hu; apply updateRef_step in Hu;
           split_trace; try congruence;
           (split; [unfold observed, passed; simpl; congruence | reflexivity]));
      intros ev Hev Hok Hu;
      first [ match type of Htip with
              | ?P -> _ => assert P as Hnone by no_update
              end;
              eexists; split; [reflexivity|]; split; [exact I|];
              split; [exact Hnone | exact (Htip Hnone)]
            | in_cases; try congruence;
              rewrite <- not_true_iff_false, updateRef_step in Hu; congruence ].
  - unfold passed in Hobs; simpl in Hobs; symmetry in Hobs; explode tr1.
    split; [|split].
    + intros ev Hev Hm. in_cases; eapply mutation_step; eassumption.
    + intros pre ev post Hsplit Hu. apply updateRef_step in Hu.
      split_trace; try congruence;
        (split; [unfold observed, passed; simpl; congruence | reflexivity]).
    + intros ev Hev Hok Hu. in_cases; congruence.
Qed.

End DeleterFacts.

Lemma scripted_frame (sc : Scripted.Script) (w : Scripted.World) (c : Call) :
  isMutation c = false ->
  Scripted.head (fst (Scripted.remote sc w c)) = Scripted.head w.
Proof.
  intros H. unfold Scripted.remote.
  destruct (existsb (Nat.eqb (Scripted.answered w)) (Scripted.down sc));
    [reflexivity|].
  destruct c; simpl in *; try reflexivity; try discriminate.
  destruct (Scripted.contents sc path0); reflexivity.
Qed.

Lemma refUpdate_only_after_all_steps_witness :
  In TreeCreationFails.refused (snd TreeCreationFails.run)
  /\ exists resp,
       fst (fst TreeCreationFails.run) = Ret resp /\ isError resp
       /\ (forall e, In e (snd TreeCreationFails.run) ->
                     isUpdateRef (call e) = false)
       /\ Scripted.head (snd (fst TreeCreationFails.run))
          = Scripted.head Scripted.start.
Proof.
  split.
  - vm_compute. tauto.
  - apply (proj2 (proj2 (@refUpdate_only_after_all_steps
                           _ (Scripted.remote (Scripted.script [3]))
                           _ Scripted.head (scripted_frame (Scripted.script [3]))
                           TreeCreationFails.request
                           (Some TreeCreationFails.alice)
                           Scripted.start
                           (snd (fst TreeCreationFails.run))
                           (fst (fst TreeCreationFails.run))
                           (snd TreeCreationFails.run) eq_refl))
                 TreeCreationFails.refused).
    + vm_compute. tauto.
    + reflexivity.
    + reflexivity.
Defined.

(** C10.  Whenever the deleter answers with a success body, its [deleted]
    field is the number of items of the request, whatever the snapshot held;
    and it does answer so when all six provider calls succeed. *)
Theorem deleted_is_selection_length :
  forall (W : Type) (remote : W -> forall c : Call, W * Resp (payload c))
         (req : DeleteRequest) (caller : option Profile)
         (w w' : W) (out : Outcome HttpResponse) (tr : list Event),
    deleteItems remote req caller w = (out, w', tr) ->
    (forall resp n,
        out = Ret resp -> body resp = BDeleted n ->
        n = List.length (dl_items req))
    /\ (observed tr = passed 6 ->
        out = Ret {| status := 200;
                     body := BDeleted (List.length (dl_items req)) |}).
Proof.
  intros W remote req caller w w' out tr Hrun.
  destruct (@deleteItems_runs W remote unit (fun _ => tt) (fun _ _ _ => eq_refl)
              req caller w) as (resp & w1 & tr1 & Hr & Hshape & _).
  rewrite Hrun in Hr. injection Hr as -> -> ->.
  split.
  - intros resp' n [= <-] Hb.
    inversion Hshape; subst; simpl in *.
    + subst. contradiction.
    + discriminate.
    + congruence.
  - intros Hobs. rewrite Hobs in Hshape.
    inversion Hshape as [ | k s st msg Hk Hresp Hsplit | ]; [|reflexivity].
    exfalso.
    destruct k as [|[|[|[|[|[|k]]]]]]; simpl in Hk;
      try (destruct k; discriminate Hk); injection Hk as <-;
      discriminate Hsplit.
Qed.

Lemma deleted_is_selection_length_witness :
  fst (fst DeleteSucceeds.run) = Ret {| status := 200; body := BDeleted 2 |}.
Proof.
  apply (proj2 (@deleted_is_selection_length
                  _ (Scripted.remote (Scripted.script []))
                  TreeCreationFails.request (Some TreeCreationFails.alice)
                  Scripted.start
                  (snd (fst DeleteSucceeds.run)) (fst (fst DeleteSucceeds.run))
                  (snd DeleteSucceeds.run) eq_refl)).
  reflexivity.
Defined.

(* ===================================================================== *)
(** ** The batch mover: same-folder skips *)
(* ===================================================================== *)

Lemma bind_silent {W A B} (m : Mon.M W A) (k : A -> Mon.M W B) (a : A) (w : W) :
  m w = (Ret a, w, []) -> Mon.bind m k w = k a w.
Proof.
  intros H. unfold Mon.bind. rewrite H.
  destruct (k a w) as [[o w2] t2]. reflexivity.
Qed.

Lemma bind_ret {W A B} (a : A) (k : A -> Mon.M W B) (w : W) :
  Mon.bind (Mon.ret a) k w = k a w.
Proof. apply bind_silent. reflexivity. Qed.

Lemma bind_Ret {W A B} (m : Mon.M W A) (k : A -> Mon.M W B)
      (a : A) (w w1 : W) (t1 : list Event) :
  m w = (Ret a, w1, t1) ->
  Mon.bind m k w
  = (fst (fst (k a w1)), snd (fst (k a w1)), t1 ++ snd (k a w1)).
Proof.
  intros H. unfold Mon.bind. rewrite H.
  destruct (k a w1) as [[o w2] t2]. reflexivity.
Qed.

(** C8, as amended.  An item whose containing folder is the destination is
    recorded as skipped, with status "skipped (same folder)" for a file and
    "skipped (same parent)" for a directory; no call is issued for it and
    the loop goes on with the next item.  The single-item mover returns
    [skipped] without a call when source and destination path are equal. *)
Theorem same_folder_is_skipped :
  forall (W : Type) (remote : W -> forall c : Call, W * Resp (payload c))
         (owner repo branch destination : string) (fuel : nat)
         (t : Tally) (file : FileItem) (rest : list FileItem) (w : W),
    containingFolder (path file) = destination ->
    moveItem remote owner repo branch fuel destination t file w
    = (Ret (inl (skip t (skippedDetail destination file))), w, [])
    /\ Mon.forOfReturn (file :: rest) t
         (moveItem remote owner repo branch fuel destination) w
       = Mon.forOfReturn rest (skip t (skippedDetail destination file))
           (moveItem remote owner repo branch fuel destination) w
    /\ forall p s : string,
         moveSingleFile remote owner repo branch p s p w
         = (Ret {| mr_status := "skipped"; mr_reason := Some "same path" |},
            w, []).
Proof.
  intros W remote owner repo branch destination fuel t file rest w Hdir.
  assert (moveItem remote owner repo branch fuel destination t file w
          = (Ret (inl (skip t (skippedDetail destination file))), w, [])) as Hitem.
  { unfold moveItem, checkItem, skippedDetail. rewrite Hdir, String.eqb_refl.
    destruct (type file); reflexivity. }
  split; [exact Hitem|]. split.
  - simpl. now rewrite (bind_silent _ _ Hitem).
  - intros p s. unfold moveSingleFile. now rewrite String.eqb_refl.
Qed.

Lemma same_folder_is_skipped_witness :
  Mon.forOfReturn (mv_files SameParent.request)
    {| movedCount := 0; skippedCount := 0; details := [] |}
    (moveItem (Scripted.remote (Scripted.script [])) "alice" "site" "main" 8
       EmptyString) Scripted.start
  = (Ret (inl {| movedCount := 0; skippedCount := 1;
                 details := [ {| src := "docs"; dest := "root";
                                 d_status := "skipped (same parent)" |} ] |}),
     Scripted.start, []).
Proof.
  etransitivity.
  - exact (proj1 (proj2 (@same_folder_is_skipped
                           _ (Scripted.remote (Scripted.script []))
                           "alice" "site" "main" EmptyString 8
                           {| movedCount := 0; skippedCount := 0; details := [] |}
                           {| path := "docs"; sha := "d2"; type := TDir |}
                           [] Scripted.start eq_refl))).
  - reflexivity.
Defined.

(** C8, as stated, fails for a directory: its skip is recorded under the
    status "skipped (same parent)". *)
Lemma same_folder_status_differs_for_dir :
  containingFolder "docs" = mv_destination SameParent.request
  /\ SameParent.run
     = (Ret {| status := 200;
               body := BMoved 0 1 [ {| src := "docs"; dest := "root";
                                       d_status := "skipped (same parent)" |} ] |},
        Scripted.start, [])
  /\ "skipped (same parent)" <> "skipped (same folder)".
Proof.
  repeat split. discriminate.
Qed.

(* ===================================================================== *)
(** ** Facts on paths *)
(* ===================================================================== *)

Lemma prefix_cons (a : ascii) (s1 s2 : string) :
  String.prefix (String a s1) (String a s2) = String.prefix s1 s2.
Proof.
  simpl. destruct (ascii_dec a a); [reflexivity|contradiction].
Qed.

Lemma prefix_length (s1 s2 : string) :
  String.prefix s1 s2 = true -> String.length s1 <= String.length s2.
Proof.
  revert s1. induction s2 as [|b s2 IH]; intros [|a s1]; simpl;
    try discriminate; try lia.
  destruct (ascii_dec a b); [|discriminate].
  intros H. apply IH in H. lia.
Qed.

Lemma split_nonempty (p : string) (c : ascii) : Js.split p c <> [].
Proof.
  destruct p as [|a rest]; simpl; [discriminate|].
  destruct (Ascii.eqb a c); [discriminate|].
  destruct (Js.split rest c); discriminate.
Qed.

(** The first segment of a path is a prefix of the path. *)
Lemma split_head (p w : string) (ws : list string) (c : ascii) :
  Js.split p c = w :: ws -> String.prefix w p = true.
Proof.
  revert w ws. induction p as [|a rest IH]; intros w ws; cbn [Js.split].
  - intros [= <- _]. reflexivity.
  - destruct (Ascii.eqb a c).
    + intros [= <- _]. reflexivity.
    + destruct (Js.split rest c) as [|w' ws'] eqn:E.
      * exfalso. exact (split_nonempty _ _ E).
      * intros [= <- _]. rewrite prefix_cons. eapply IH. reflexivity.
Qed.

(** A path with a ".." segment contains "..". *)
Lemma dotdot_segment_included (p : string) :
  In ".." (Js.split p "/") -> Js.includes p ".." = true.
Proof.
  induction p as [|a rest IH].
  - simpl. intros [H|[]]. discriminate.
  - intros H. cbn [Js.includes]. apply orb_true_iff. cbn [Js.split] in H.
    destruct (Ascii.eqb a "/").
    + destruct H as [H|H]; [discriminate|]. right. now apply IH.
    + destruct (Js.split rest "/") as [|w ws] eqn:E.
      * destruct H as [H|[]]. discriminate.
      * destruct H as [H|H].
        -- left. injection H as -> ->.
           rewrite prefix_cons. eapply split_head. exact E.
        -- right. apply IH. now right.
Qed.

Lemma take_length (n : nat) (s : string) :
  String.length (Js.take n s) = Nat.min n (String.length s).
Proof.
  revert s. induction n as [|n IH]; intros [|a s]; simpl; try reflexivity.
  now rewrite IH.
Qed.

Lemma lastIndexOf_bound (s : string) (c : ascii) (i : nat) :
  Js.lastIndexOf s c = Some i -> i < String.length s.
Proof.
  revert i. induction s as [|a s IH]; simpl; intros i; [discriminate|].
  destruct (Js.lastIndexOf s c) as [j|].
  - intros [= <-]. specialize (IH j eq_refl). lia.
  - destruct (Ascii.eqb a c); [|discriminate]. intros [= <-]. lia.
Qed.

(** The containing folder of a non-empty path is strictly shorter than it. *)
Lemma containingFolder_shorter (p : string) :
  p <> EmptyString ->
  String.length (containingFolder p) < String.length p.
Proof.
  intros Hp. unfold containingFolder.
  assert (0 < String.length p) as Hlen by (destruct p; simpl; [congruence|lia]).
  destruct (Js.includes p "/"); [|exact Hlen].
  destruct (Js.lastIndexOf p "/") as [i|] eqn:E.
  - apply lastIndexOf_bound in E. rewrite take_length. lia.
  - rewrite take_length. lia.
Qed.

Lemma append_length (s1 s2 : string) :
  String.length (s1 ++ s2) = String.length s1 + String.length s2.
Proof.
  induction s1 as [|a s1 IH]; simpl; [reflexivity|]. now rewrite IH.
Qed.

(** The folder test and the cycle test never meet on a non-empty path:
    a destination that is the containing folder of [p] is neither [p] nor
    under [p]. *)
Lemma folder_is_no_cycle (p : string) :
  p <> EmptyString ->
  String.eqb (containingFolder p) p = false
  /\ Js.startsWith (containingFolder p) (p ++ "/") = false.
Proof.
  intros Hp. pose proof (containingFolder_shorter Hp) as Hlt. split.
  - apply String.eqb_neq. intros E. rewrite E in Hlt. lia.
  - apply not_true_is_false. intros E. unfold Js.startsWith in E.
    apply prefix_length in E. rewrite append_length in E. simpl in E. lia.
Qed.

(* ===================================================================== *)
(** ** The dialog's validator against the handler's checks *)
(* ===================================================================== *)

Lemma firstCycle_exists (files : list FileItem) (d : string) :
  match firstCycle files d with Some _ => true | None => false end
  = existsb (clientCycle d) files.
Proof.
  induction files as [|f files IH]; simpl; [reflexivity|].
  unfold clientCycle at 1. destruct (type f); [exact IH|].
  destruct (String.eqb d (path f)); [reflexivity|].
  destruct (Js.startsWith d (path f ++ "/")); [reflexivity|exact IH].
Qed.

Lemma invalid_iff (files : list FileItem) (current dest : string) :
  invalid (isInvalidDestination files current dest) = true <->
  resolve dest = current \/ existsb (clientCycle (resolve dest)) files = true.
Proof.
  unfold isInvalidDestination. rewrite <- firstCycle_exists.
  destruct (String.eqb (resolve dest) current) eqn:E.
  - apply String.eqb_eq in E. simpl. tauto.
  - apply String.eqb_neq in E.
    destruct (firstCycle files (resolve dest)); simpl; split; auto.
    intros [H|H]; [contradiction|discriminate].
Qed.

Lemma startsWith_truthy (d p : string) :
  Js.startsWith d (p ++ "/") = true -> Js.truthy d = true.
Proof.
  intros H. apply prefix_length in H. rewrite append_length in H. simpl in H.
  destruct d; simpl in *; [lia|reflexivity].
Qed.

(** On an item with a non-empty path both sides run the same cycle test. *)
Lemma cycle_tests_agree (d : string) (f : FileItem) :
  (type f = TDir -> path f <> EmptyString) ->
  clientCycle d f = rejects d f.
Proof.
  intros Hp. unfold clientCycle, rejects, checkItem.
  destruct (type f).
  - destruct (String.eqb d (containingFolder (path f))); reflexivity.
  - specialize (Hp eq_refl).
    destruct (folder_is_no_cycle Hp) as [Hself Hunder].
    destruct (String.eqb d (containingFolder (path f))) eqn:E.
    + apply String.eqb_eq in E. subst d. now rewrite Hself, Hunder.
    + destruct (String.eqb d (path f)); [reflexivity|]. simpl.
      destruct (Js.startsWith d (path f ++ "/")) eqn:S.
      * now rewrite (startsWith_truthy _ _ S).
      * now rewrite andb_false_r.
Qed.

(** C5, as amended.  On a selection of items with non-empty paths, the
    dialog marks a destination invalid exactly when it is the current folder
    or the handler's own check refuses the request for some selected
    directory (a folder moved into itself or into its descendant).  The
    same-folder rule is the dialog's alone: an item whose containing folder
    is the destination is never refused by the handler, it is recorded as
    skipped. *)
Theorem validators_agree_on_cycles :
  forall (files : list FileItem) (current dest : string),
    (forall f, In f files -> type f = TDir -> path f <> EmptyString) ->
    (invalid (isInvalidDestination files current dest) = true <->
     resolve dest = current \/ serverRejects files (resolve dest) = true)
    /\ (forall f, In f files ->
                  containingFolder (path f) = resolve dest ->
                  rejects (resolve dest) f = false
                  /\ exists st, checkItem (resolve dest) f = SkipItem st).
Proof.
  intros files current dest Hpaths. split.
  - rewrite invalid_iff. unfold serverRejects.
    assert (existsb (clientCycle (resolve dest)) files
            = existsb (rejects (resolve dest)) files) as ->; [|tauto].
    clear current. induction files as [|f files IH]; simpl; [reflexivity|].
    rewrite cycle_tests_agree by (apply Hpaths; left; reflexivity).
    rewrite IH by (intros g Hg; apply Hpaths; right; exact Hg).
    reflexivity.
  - intros f _ Hdir. unfold rejects, checkItem. rewrite Hdir, String.eqb_refl.
    destruct (type f); eauto.
Qed.

Lemma validators_agree_on_cycles_witness :
  invalid (isInvalidDestination IntoItself.selection EmptyString "docs") = true
  /\ serverRejects IntoItself.selection "docs" = true.
Proof.
  assert (forall f, In f IntoItself.selection -> type f = TDir ->
                    path f <> EmptyString) as Hpaths.
  { intros f [<-|[]] _. discriminate. }
  split; [reflexivity|].
  destruct (proj1 (proj1 (validators_agree_on_cycles
                            IntoItself.selection EmptyString "docs" Hpaths))
                  eq_refl) as [H|H].
  - discriminate H.
  - exact H.
Defined.

(** C5, as stated, fails on the same-folder rule: the dialog marks the
    current folder invalid, the handler accepts the request and answers with
    success, the item recorded as skipped. *)
Lemma same_folder_invalid_only_for_dialog :
  isInvalidDestination SameFolder.selection "a" "a"
  = {| invalid := true; reason := Some "same as current folder" |}
  /\ serverRejects SameFolder.selection "a" = false
  /\ SameFolder.run
     = (Ret {| status := 200;
               body := BMoved 0 1 [ {| src := "a/b.txt"; dest := "a";
                                       d_status := "skipped (same folder)" |} ] |},
        Scripted.start, []).
Proof.
  repeat split.
Qed.

(* ===================================================================== *)
(** ** The batch mover on requests the description says are refused *)
(* ===================================================================== *)

(** The refusal itself issues no call. *)
Lemma moveItem_rejects {W} (remote : W -> forall c : Call, W * Resp (payload c))
      (owner repo branch destination : string) (fuel : nat)
      (t : Tally) (file : FileItem) (w : W) :
  rejects destination file = true ->
  moveItem remote owner repo branch fuel destination t file w
  = (Ret (inr {| status := 400;
                 body := BError (cycleMessage (path file) destination) |}),
     w, []).
Proof.
  unfold rejects, moveItem.
  destruct (checkItem destination file); try discriminate. reflexivity.
Qed.

(** A request whose offending directory comes first is refused before any
    call. *)
Lemma moveFiles_rejects_first {W}
      (remote : W -> forall c : Call, W * Resp (payload c))
      (fuel : nat) (req : MoveRequest) (sess : Session)
      (file : FileItem) (rest : list FileItem) (pr : Profile) (w : W) :
  moveFilesSchema req = true ->
  user sess <> None ->
  profile sess = Some pr ->
  Js.truthy (github_access_token pr) = true ->
  mv_files req = file :: rest ->
  rejects (mv_destination req) file = true ->
  moveFiles remote fuel req sess w
  = (Ret {| status := 400;
            body := BError (cycleMessage (path file) (mv_destination req)) |},
     w, []).
Proof.
  intros Hs Hu Hp Ht Hf Hr. unfold moveFiles, Mon.catch.
  rewrite Hs, Hp, Ht, Hf. cbn [negb].
  destruct (user sess); [|congruence].
  cbn [Mon.forOfReturn]. unfold Mon.bind.
  rewrite moveItem_rejects by exact Hr. reflexivity.
Qed.

(** C4 on a failing input.  The selection lists a file and then a directory
    that is its own destination.  The request is answered with 400, but only
    after the file has been created at its new path and deleted at its old
    one. *)
Theorem cycle_rejected_after_earlier_item_moved :
  serverRejects (mv_files EarlierItem.request)
                (mv_destination EarlierItem.request) = true
  /\ EarlierItem.run
     = (Ret {| status := 400; body := BError (cycleMessage "docs" "docs") |},
        {| Scripted.answered := 4; Scripted.head := "c0" |},
        [ {| call := GetContents "alice" "site" "a/b.txt" "main"; ok := true |};
          {| call := GetContents "alice" "site" "docs/b.txt" "main";
             ok := false |};
          {| call := PutContents "alice" "site" "docs/b.txt"
                       "Move a/b.txt to docs/b.txt" (Some "QQ==") "main" None;
             ok := true |};
          {| call := DeleteContents "alice" "site" "a/b.txt"
                       "Delete old file a/b.txt" "s1" "main";
             ok := true |} ]).
Proof.
  split; reflexivity.
Qed.

(* ===================================================================== *)
(** ** Validation and authorization: the deleter has them *)
(* ===================================================================== *)

Lemma delete_invalid_is_400 {W}
      (remote : W -> forall c : Call, W * Resp (payload c))
      (req : DeleteRequest) (caller : option Profile) (w : W) :
  Schema.deleteItemsSchema req = false ->
  deleteItems remote req caller w
  = (Ret {| status := 400; body := BInvalidInput |}, w, []).
Proof.
  intros H. unfold deleteItems, Mon.catch. rewrite H. reflexivity.
Qed.

Lemma schema_paths_are_safe (req : DeleteRequest) (i : DeleteItem) :
  Schema.deleteItemsSchema req = true -> In i (dl_items req) ->
  di_path i <> EmptyString
  /\ ~ In ".." (Js.split (di_path i) "/")
  /\ Js.startsWith (di_path i) "/" = false.
Proof.
  unfold Schema.deleteItemsSchema. intros H Hi.
  repeat match goal with
         | F : _ && _ = true |- _ => apply andb_true_iff in F as [? ?]
         end.
  match goal with
  | F : forallb _ _ = true |- _ =>
      rewrite forallb_forall in F; specialize (F i Hi)
  end.
  unfold Schema.itemPath, Schema.sized, Schema.noTraversal in *.
  repeat match goal with
         | F : _ && _ = true |- _ => apply andb_true_iff in F as [? ?]
         end.
  repeat split.
  - intros E.
    match goal with
    | F : Nat.leb 1 (String.length (di_path i)) = true |- _ =>
        rewrite E in F; discriminate F
    end.
  - intros Hseg. apply dotdot_segment_included in Hseg.
    match goal with
    | F : negb (Js.includes _ _) = true |- _ => rewrite Hseg in F; discriminate F
    end.
  - now apply negb_true_iff.
Qed.

Lemma delete_cross_owner_is_403 {W}
      (remote : W -> forall c : Call, W * Resp (payload c))
      (req : DeleteRequest) (pr : Profile) (w : W) :
  Schema.deleteItemsSchema req = true ->
  dl_owner req <> github_username pr ->
  deleteItems remote req (Some pr) w
  = (Ret {| status := 403;
            body := BError "Unauthorized: can only access your own repositories" |},
     w, []).
Proof.
  intros Hs Ho. unfold deleteItems, Mon.catch. rewrite Hs.
  apply String.eqb_neq in Ho. simpl. rewrite Ho. reflexivity.
Qed.

(** C6 on a failing input.  The move schema puts no condition on a path:
    a request for the path "../x", which the delete schema refuses, is
    served, and the path reaches the provider in four calls. *)
Theorem traversal_path_is_moved :
  Schema.itemPath "../x" = false
  /\ In ".." (Js.split "../x" "/")
  /\ Traversal.run
     = (Ret {| status := 200;
               body := BMoved 1 0 [ {| src := "../x"; dest := "a/x";
                                       d_status := "moved" |} ] |},
        {| Scripted.answered := 4; Scripted.head := "c0" |},
        [ {| call := GetContents "alice" "site" "../x" "main"; ok := true |};
          {| call := GetContents "alice" "site" "a/x" "main"; ok := true |};
          {| call := PutContents "alice" "site" "a/x" "Move ../x to a/x"
                       (Some "QQ==") "main" (Some "s0");
             ok := true |};
          {| call := DeleteContents "alice" "site" "../x"
                       "Delete old file ../x" "s9" "main";
             ok := true |} ]).
Proof.
  split; [reflexivity|]. split; [left; reflexivity|reflexivity].
Qed.

(** C7 on a failing input.  The caller is [bob] and the request names
    [alice] as owner: the deleter answers 403 without a call, the mover
    serves the request. *)
Theorem cross_owner_move_is_served :
  mv_owner CrossOwner.request <> github_username CrossOwner.bob
  /\ CrossOwner.deletion
     = (Ret {| status := 403;
               body := BError "Unauthorized: can only access your own repositories" |},
        Scripted.start, [])
  /\ CrossOwner.run
     = (Ret {| status := 200;
               body := BMoved 1 0 [ {| src := "a/b.txt"; dest := "c/b.txt";
                                       d_status := "moved" |} ] |},
        {| Scripted.answered := 4; Scripted.head := "c0" |},
        [ {| call := GetContents "alice" "site" "a/b.txt" "main"; ok := true |};
          {| call := GetContents "alice" "site" "c/b.txt" "main"; ok := false |};
          {| call := PutContents "alice" "site" "c/b.txt"
                       "Move a/b.txt to c/b.txt" (Some "QQ==") "main" None;
             ok := true |};
          {| call := DeleteContents "alice" "site" "a/b.txt"
                       "Delete old file a/b.txt" "s1" "main";
             ok := true |} ]).
Proof.
  split; [discriminate|]. split; reflexivity.
Qed.

(* ===================================================================== *)
(** ** The recursive directory lister *)
(* ===================================================================== *)

Section ListerFacts.

Variable W : Type.
Variable remote : W -> forall c : Call, W * Resp (payload c).
Variables owner repo branch : string.

(** The revision read: what the contents endpoint answers for each path,
    as long as the provider's state [Agrees] with it. *)
Variable dir : string -> Resp Contents.
Variable Agrees : W -> Prop.

Hypothesis served :
  forall w p, Agrees w ->
    snd (remote w (GetContents owner repo p branch)) = dir p.

Hypothesis kept :
  forall w p, Agrees w ->
    Agrees (fst (remote w (GetContents owner repo p branch))).

Lemma Depth_mono (n m : nat) (d : string) :
  Depth dir n d -> n <= m -> Depth dir m d.
Proof.
  revert m d. induction n as [|n IH]; intros m d H Hle.
  - inversion H.
  - destruct m as [|m]; [lia|]. inversion H; subst.
    + eapply DepthFailed; eassumption.
    + eapply DepthListed; [eassumption|]. intros it Hin Hty.
      apply IH; [auto|lia].
Qed.

Lemma loop_lists (fuel : nat) :
  (forall d w, Agrees w -> Depth dir fuel d ->
     Lists Agrees (Reach dir d) (listFilesRecursively remote owner repo branch fuel d w)) ->
  forall items acc w,
    Agrees w ->
    (forall it, In it items -> ci_type it = "dir" -> Depth dir fuel (ci_path it)) ->
    Lists Agrees (fun x => In x acc \/ Under dir items x)
          (Mon.forOf items acc (loopBody remote owner repo branch fuel) w).
Proof.
  intros IH. induction items as [|it items IHitems]; intros acc w Hw Hdepth.
  - exists acc, w, []. repeat split; auto.
    + intros [H|(it & [] & _)]. exact H.
  - cbn [Mon.forOf]. unfold loopBody at 1.
    destruct (String.eqb (ci_type it) "file") eqn:Efile.
    + apply String.eqb_eq in Efile. rewrite bind_ret. fold (refOf it).
      destruct (IHitems (acc ++ [refOf it]) w Hw) as (res & w' & tr & -> & Hw' & Hres & Htr).
      { intros; apply Hdepth; auto using in_cons. }
      exists res, w', tr. repeat split; auto.
      * intros Hx. apply Hres in Hx as [Hx|(it' & Hin & Hit')].
        -- apply in_app_or in Hx as [Hx|[<-|[]]]; [now left|].
           right. exists it. split; [now left|]. now left.
        -- right. exists it'. split; [now right|exact Hit'].
      * intros [Hx|(it' & [<-|Hin] & Hit')]; apply Hres.
        -- left. apply in_or_app. now left.
        -- destruct Hit' as [[_ ->]|[Hty _]]; [|congruence].
           left. apply in_or_app. right. now left.
        -- right. exists it'. auto.
    + destruct (String.eqb (ci_type it) "dir") eqn:Edir.
      * apply String.eqb_eq in Edir.
        destruct (IH (ci_path it) w Hw (Hdepth it (in_eq _ _) Edir))
          as (sub & w1 & t1 & Hrun & Hw1 & Hsub & Ht1).
        pose proof (@bind_Ret W _ _
                      (listFilesRecursively remote owner repo branch fuel
                         (ci_path it))
                      (fun sub0 => Mon.ret (acc ++ sub0)) sub w w1 t1 Hrun)
          as Hinner.
        cbn [Mon.ret fst snd] in Hinner. rewrite app_nil_r in Hinner.
        rewrite (@bind_Ret W _ _ _ _ (acc ++ sub) w w1 t1 Hinner).
        destruct (IHitems (acc ++ sub) w1 Hw1) as (res & w' & tr & -> & Hw' & Hres & Htr).
        { intros; apply Hdepth; auto using in_cons. }
        cbn [fst snd]. exists res, w', (t1 ++ tr). repeat split; auto.
        -- intros Hx. apply Hres in Hx as [Hx|(it' & Hin & Hit')].
           ++ apply in_app_or in Hx as [Hx|Hx]; [now left|].
              right. exists it. split; [now left|]. right. split; [exact Edir|].
              now apply Hsub.
           ++ right. exists it'. split; [now right|exact Hit'].
        -- intros [Hx|(it' & [<-|Hin] & Hit')]; apply Hres.
           ++ left. apply in_or_app. now left.
           ++ destruct Hit' as [[Hty _]|[_ Hr]].
              ** apply String.eqb_neq in Efile. contradiction.
              ** left. apply in_or_app. right. now apply Hsub.
           ++ right. exists it'. auto.
        -- apply Forall_app. split; assumption.
      * rewrite bind_ret.
        destruct (IHitems acc w Hw) as (res & w' & tr & -> & Hw' & Hres & Htr).
        { intros; apply Hdepth; auto using in_cons. }
        exists res, w', tr. repeat split; auto.
        -- intros Hx. apply Hres in Hx as [Hx|(it' & Hin & Hit')]; [now left|].
           right. exists it'. split; [now right|exact Hit'].
        -- intros [Hx|(it' & [<-|Hin] & Hit')]; apply Hres.
           ++ now left.
           ++ apply String.eqb_neq in Efile, Edir.
              destruct Hit' as [[Hty _]|[Hty _]]; contradiction.
           ++ right. exists it'. auto.
Qed.

Lemma fetch_contents (w : W) (p : string) :
  Agrees w ->
  exists w1,
    Mon.fetch remote (GetContents owner repo p branch) w
    = (Ret (dir p), w1,
       [{| call := GetContents owner repo p branch; ok := isOk (dir p) |}])
    /\ Agrees w1.
Proof.
  intros Hw. unfold Mon.fetch.
  pose proof (served p Hw) as Hs. pose proof (kept p Hw) as Hk.
  destruct (remote w (GetContents owner repo p branch)) as [w1 r].
  simpl in Hs, Hk. subst r. exists w1. split; [reflexivity|exact Hk].
Qed.

Lemma lister_lists (fuel : nat) :
  forall d w, Agrees w -> Depth dir fuel d ->
    Lists Agrees (Reach dir d) (listFilesRecursively remote owner repo branch fuel d w).
Proof.
  induction fuel as [|fuel IH]; intros d w Hw Hd; [inversion Hd|].
  cbn [listFilesRecursively].
  destruct (fetch_contents d Hw) as (w1 & Hfetch & Hw1).
  rewrite (@bind_Ret W _ _ _ _ (dir d) w w1 _ Hfetch).
  inversion Hd as [n d' st txt Hdir | n d' items Hdir Hsub]; subst; rewrite Hdir.
  - cbn. exists [], w1, [{| call := GetContents owner repo d branch; ok := false |}].
    repeat split; auto.
    + intros [].
    + intros Hr. inversion Hr; congruence.
  - destruct (loop_lists IH items [] Hw1 Hsub)
      as (res & w' & tr & Hrun & Hw' & Hres & Htr).
    unfold loopBody in Hrun. rewrite Hrun. cbn.
    exists res, w', ({| call := GetContents owner repo d branch; ok := true |} :: tr).
    repeat split; auto.
    + intros Hx. apply Hres in Hx as [[]|(it & Hin & [[Hty ->]|[Hty Hr]])].
      * eapply ReachFile; eassumption.
      * eapply ReachDir; eassumption.
    + intros Hr. apply Hres. right.
      inversion Hr as [d0 items0 it E Hin Hty | d0 items0 it x0 E Hin Hty Hsubr];
        subst; rewrite Hdir in E; injection E as <-; exists it; auto.
Qed.

(** C9.  On a revision whose listing under [d] nests at most [n] deep, a
    failed fetch counting as a leaf, the lister with fuel for that depth
    returns, without throwing, a sequence holding exactly the blobs
    reachable under [d]; it issues nothing but reads; and it returns the
    empty sequence when the fetch of [d] itself fails. *)
Theorem lister_returns_reachable_blobs :
  forall (fuel n : nat) (d : string) (w : W),
    Agrees w -> Depth dir n d -> n <= fuel ->
    exists res w' tr,
      listFilesRecursively remote owner repo branch fuel d w = (Ret res, w', tr)
      /\ (forall x, In x res <-> Reach dir d x)
      /\ (forall st txt, dir d = RespErr st txt -> res = [])
      /\ Forall (fun e => isRead (call e) = true) tr.
Proof.
  intros fuel n d w Hw Hd Hle.
  destruct (lister_lists Hw (Depth_mono Hd Hle))
    as (res & w' & tr & Hrun & _ & Hres & Htr).
  exists res, w', tr. repeat split; try assumption; try apply Hres.
  intros st txt Hfail. destruct res as [|x res]; [reflexivity|].
  assert (Reach dir d x) as Hr by (apply Hres; now left).
  inversion Hr; congruence.
Qed.

End ListerFacts.

Module RevisionFacts.

Lemma served (w : Scripted.World) (p : string) :
  True ->
  snd (Scripted.remote (Scripted.script []) w (GetContents "alice" "site" p "main"))
  = Revision.dir p.
Proof.
  intros _. unfold Scripted.remote, Revision.dir. simpl.
  destruct (Scripted.files p); reflexivity.
Qed.

Lemma depth_docs : Depth Revision.dir 2 "docs".
Proof.
  eapply DepthListed; [reflexivity|].
  intros it [<-|[<-|[]]] Hty; [discriminate|]. clear Hty.
  eapply DepthListed; [reflexivity|].
  intros it [<-|[]] Hty. discriminate.
Qed.

End RevisionFacts.

Lemma lister_returns_reachable_blobs_witness :
  exists res w' tr,
    listFilesRecursively (Scripted.remote (Scripted.script []))
      "alice" "site" "main" 2 "docs" Scripted.start
    = (Ret res, w', tr)
    /\ (forall x, In x res <-> Reach Revision.dir "docs" x)
    /\ (forall st txt, Revision.dir "docs" = RespErr st txt -> res = [])
    /\ Forall (fun e => isRead (call e) = true) tr.
Proof.
  apply (@lister_returns_reachable_blobs
           _ (Scripted.remote (Scripted.script [])) "alice" "site" "main"
           Revision.dir (fun _ => True) RevisionFacts.served (fun _ _ _ => I)
           2 2 "docs" Scripted.start I RevisionFacts.depth_docs (le_n 2)).
Defined.

(** The same run, evaluated: both blobs, the nested one last. *)
Example lister_on_docs :
  fst (fst (listFilesRecursively (Scripted.remote (Scripted.script []))
              "alice" "site" "main" 2 "docs" Scripted.start))
  = Ret [ {| fr_path := "docs/x.md"; fr_sha := "s2" |};
          {| fr_path := "docs/sub/y.md"; fr_sha := "s3" |} ].
Proof. reflexivity. Qed.

(** A fetch refused inside the recursion: the blobs under it are missing
    from the result, and nothing is thrown. *)
Example lister_with_refused_subdirectory :
  fst (fst (listFilesRecursively (Scripted.remote (Scripted.script [1]))
              "alice" "site" "main" 2 "docs" Scripted.start))
  = Ret [ {| fr_path := "docs/x.md"; fr_sha := "s2" |} ].
Proof. reflexivity. Qed.

(* ===================================================================== *)
(** ** Where the mover's 400 comes from *)
(* ===================================================================== *)

Section Refusals.

Variable W : Type.
Variable remote : W -> forall c : Call, W * Resp (payload c).

(** The loop body leaves the handler only through the cycle test. *)
Lemma moveItem_returns (owner repo branch destination : string) (fuel : nat)
      (t : Tally) (file : FileItem) (w w' : W) (r : HttpResponse)
      (tr : list Event) :
  moveItem remote owner repo branch fuel destination t file w
  = (Ret (inr r), w', tr) ->
  rejects destination file = true
  /\ r = {| status := 400;
            body := BError (cycleMessage (path file) destination) |}.
Proof.
  unfold moveItem, rejects.
  destruct (checkItem destination file).
  - discriminate.
  - intros [= <- _ _]. split; reflexivity.
  - destruct (type file); unfold Mon.bind.
    + destruct (moveSingleFile remote owner repo branch (path file) (sha file) _ w)
        as [[[res|e|] w1] t1]; simpl; discriminate.
    + destruct (listFilesRecursively remote owner repo branch fuel (path file) w)
        as [[[dirFiles|e|] w1] t1]; try discriminate.
      destruct (Mon.forOf dirFiles t _ w1) as [[[t'|e|] w2] t2];
        simpl; discriminate.
Qed.

Lemma loop_returns (owner repo branch destination : string) (fuel : nat)
      (files : list FileItem) :
  forall (t : Tally) (w w' : W) (r : HttpResponse) (tr : list Event),
    Mon.forOfReturn files t (moveItem remote owner repo branch fuel destination) w
    = (Ret (inr r), w', tr) ->
    status r = 400 /\ serverRejects files destination = true.
Proof.
  induction files as [|f files IH]; intros t w w' r tr; cbn [Mon.forOfReturn].
  - discriminate.
  - unfold Mon.bind.
    destruct (moveItem remote owner repo branch fuel destination t f w)
      as [[[[t1|r1]|e|] w1] tr1] eqn:E; try discriminate.
    + destruct (Mon.forOfReturn files t1 _ w1) as [[o w2] tr2] eqn:E2.
      intros [= -> _ _]. apply IH in E2 as [Hst Hrej].
      split; [exact Hst|]. unfold serverRejects in *. simpl.
      rewrite Hrej. apply orb_true_r.
    + apply moveItem_returns in E as [Hrej ->].
      intros [= <- _ _]. split; [reflexivity|].
      unfold serverRejects. simpl. now rewrite Hrej.
Qed.

(** A 400 answer of the mover means that the per-item check refused a
    selected directory. *)
Lemma moveFiles_400 (fuel : nat) (req : MoveRequest) (sess : Session)
      (w w' : W) (resp : HttpResponse) (tr : list Event) :
  moveFiles remote fuel req sess w = (Ret resp, w', tr) ->
  status resp = 400 ->
  serverRejects (mv_files req) (mv_destination req) = true.
Proof.
  unfold moveFiles, Mon.catch.
  destruct (moveFilesSchema req); cbn [negb].
  2:{ cbn. intros [= <- _ _]. discriminate. }
  destruct (user sess); [|cbn; intros [= <- _ _]; discriminate].
  destruct (profile sess) as [pr|]; [|cbn; intros [= <- _ _]; discriminate].
  destruct (Js.truthy (github_access_token pr));
    [|cbn; intros [= <- _ _]; discriminate].
  unfold Mon.bind.
  destruct (Mon.forOfReturn (mv_files req) _ _ w) as [[[[t|r]|e|] w1] tr1] eqn:E.
  - cbn. intros [= <- _ _]. discriminate.
  - cbn. intros [= <- _ _] _. now apply loop_returns in E.
  - cbn. intros [= <- _ _]. discriminate.
  - discriminate.
Qed.

End Refusals.

(* ===================================================================== *)
(** ** The deleter: what must hold before any call, and how a run reads *)
(* ===================================================================== *)

Section DeleterGate.

Variable W : Type.
Variable remote : W -> forall c : Call, W * Resp (payload c).

(** A run of the deleter that issues a call has passed the schema and the
    owner check. *)
Lemma deleteItems_gate (req : DeleteRequest) (caller : option Profile)
      (w w' : W) (out : Outcome HttpResponse) (tr : list Event) :
  deleteItems remote req caller w = (out, w', tr) ->
  tr <> [] ->
  Schema.deleteItemsSchema req = true
  /\ exists pr, caller = Some pr /\ dl_owner req = github_username pr.
Proof.
  unfold deleteItems, Mon.catch, fail.
  destruct (Schema.deleteItemsSchema req); cbn [negb].
  2:{ cbn. intros [= _ _ <-] H. now contradiction H. }
  destruct caller as [pr|].
  2:{ cbn. intros [= _ _ <-] H. now contradiction H. }
  destruct (String.eqb (dl_owner req) (github_username pr)) eqn:E; cbn [negb].
  2:{ cbn. intros [= _ _ <-] H. now contradiction H. }
  intros _ _. apply String.eqb_eq in E. eauto.
Qed.

(** X1.  The deleter issues a provider call only for a selection that is
    not empty and whose every path is non-empty, has no ".." segment and
    does not start with "/". *)
Theorem delete_calls_only_for_safe_paths :
  forall (req : DeleteRequest) (caller : option Profile)
         (w w' : W) (out : Outcome HttpResponse) (tr : list Event),
    deleteItems remote req caller w = (out, w', tr) ->
    tr <> [] ->
    dl_items req <> []
    /\ forall i, In i (dl_items req) -> ~ unsafePath (di_path i).
Proof.
  intros req caller w w' out tr Hrun Htr.
  destruct (deleteItems_gate _ _ _ Hrun Htr) as [Hs _]. split.
  - intros E. unfold Schema.deleteItemsSchema in Hs. rewrite E in Hs.
    rewrite !andb_false_r in Hs. discriminate.
  - intros i Hi [Hu|[Hu|Hu]];
      destruct (schema_paths_are_safe req i Hs Hi) as (H1 & H2 & H3);
      [contradiction|contradiction|congruence].
Qed.

(** X2.  The deleter issues a provider call only for a caller that
    [getGitHubToken] resolved and whose provider username is the owner
    named in the request. *)
Theorem delete_calls_only_for_owner :
  forall (req : DeleteRequest) (caller : option Profile)
         (w w' : W) (out : Outcome HttpResponse) (tr : list Event),
    deleteItems remote req caller w = (out, w', tr) ->
    tr <> [] ->
    exists pr, caller = Some pr /\ github_username pr = dl_owner req.
Proof.
  intros req caller w w' out tr Hrun Htr.
  destruct (deleteItems_gate _ _ _ Hrun Htr) as [_ (pr & -> & E)]. eauto.
Qed.

End DeleterGate.

Lemma delete_succeeds_calls : snd DeleteSucceeds.run <> [].
Proof. discriminate. Qed.

Lemma delete_calls_only_for_safe_paths_witness :
  dl_items TreeCreationFails.request <> []
  /\ forall i, In i (dl_items TreeCreationFails.request) ->
               ~ unsafePath (di_path i).
Proof.
  exact (@delete_calls_only_for_safe_paths
           _ (Scripted.remote (Scripted.script []))
           TreeCreationFails.request (Some TreeCreationFails.alice)
           Scripted.start (snd (fst DeleteSucceeds.run))
           (fst (fst DeleteSucceeds.run)) (snd DeleteSucceeds.run)
           eq_refl delete_succeeds_calls).
Defined.

Lemma delete_calls_only_for_owner_witness :
  exists pr, Some TreeCreationFails.alice = Some pr
             /\ github_username pr = dl_owner TreeCreationFails.request.
Proof.
  exact (@delete_calls_only_for_owner
           _ (Scripted.remote (Scripted.script []))
           TreeCreationFails.request (Some TreeCreationFails.alice)
           Scripted.start (snd (fst DeleteSucceeds.run))
           (fst (fst DeleteSucceeds.run)) (snd DeleteSucceeds.run)
           eq_refl delete_succeeds_calls).
Defined.

Section DeleterAnswers.

Variable W : Type.
Variable remote : W -> forall c : Call, W * Resp (payload c).

Ltac call_remote :=
  match goal with
  | |- context [remote ?w ?c] =>
      let E := fresh "E" in
      destruct (remote w c) as [? [?|? ?]] eqn:E; cbn -[commitMessage]
  end.

Ltac replayed :=
  unfold answer, replay; cbn -[commitMessage];
  repeat match goal with
         | E : remote ?w ?c = _ |- context [remote ?w ?c] =>
             rewrite E; cbn -[commitMessage]
         end.



(** X4.  A run of the deleter that answers with success has issued exactly
    six calls, on the owner, repository and branch of the request, each fed
    with what the provider answered before: the commit read is the tip of
    the branch, the tree read is that commit's, the tree created is the
    rewrite of the tree read, the commit created has the created tree and
    the tip as its only parent, and the branch is set to the created
    commit. *)
Theorem delete_success_dataflow :
  forall (req : DeleteRequest) (caller : option Profile)
         (w w' : W) (resp : HttpResponse) (tr : list Event) (n : nat),
    deleteItems remote req caller w = (Ret resp, w', tr) ->
    body resp = BDeleted n ->
    exists tip base snapshot created commit,
      let o := dl_owner req in
      let r := dl_repo req in
      let b := branchName req in
      let c1 := GetRef o r b in
      let c2 := GetCommit o r tip in
      let c3 := GetTree o r base in
      let c4 := CreateTree o r (TreeRewrite.newTree (dl_items req) snapshot) in
      let c5 := CreateCommit o r (commitMessage (dl_items req)) created [tip] in
      let c6 := UpdateRef o r b commit in
      map call tr = [c1; c2; c3; c4; c5; c6]
      /\ answer remote w [] c1 = RespOk tip
      /\ answer remote w [c1] c2 = RespOk base
      /\ answer remote w [c1; c2] c3 = RespOk snapshot
      /\ answer remote w [c1; c2; c3] c4 = RespOk created
      /\ answer remote w [c1; c2; c3; c4] c5 = RespOk commit.
Proof.
  intros req caller w w' resp tr n.
  unfold deleteItems, Mon.catch, fail, branchName.
  destruct (Schema.deleteItemsSchema req); cbn [negb].
  2:{ cbn. intros [= <- _ _]. discriminate. }
  destruct caller as [pr|].
  2:{ cbn. intros [= <- _ _]. discriminate. }
  destruct (String.eqb (dl_owner req) (github_username pr)); cbn [negb].
  2:{ cbn. intros [= <- _ _]. discriminate. }
  unfold Mon.bind, Mon.fetch, Mon.ret.
  call_remote; [|intros [= <- _ _]; discriminate].
  call_remote; [|intros [= <- _ _]; discriminate].
  call_remote; [|intros [= <- _ _]; discriminate].
  call_remote; [|intros [= <- _ _]; discriminate].
  call_remote; [|intros [= <- _ _]; discriminate].
  call_remote; [|intros [= <- _ _]; discriminate].
  intros [= _ _ <-] _.
  do 5 eexists. cbn zeta. split; [reflexivity|].
  repeat split; replayed; reflexivity.
Qed.

End DeleterAnswers.


Lemma delete_success_dataflow_witness :
  exists tip base snapshot created commit,
    map call (snd DeleteSucceeds.run)
    = [ GetRef "alice" "site" "main"; GetCommit "alice" "site" tip;
        GetTree "alice" "site" base;
        CreateTree "alice" "site"
          (TreeRewrite.newTree (dl_items TreeCreationFails.request) snapshot);
        CreateCommit "alice" "site"
          (commitMessage (dl_items TreeCreationFails.request)) created [tip];
        UpdateRef "alice" "site" "main" commit ].
Proof.
  destruct (@delete_success_dataflow
              _ (Scripted.remote (Scripted.script []))
              TreeCreationFails.request (Some TreeCreationFails.alice)
              Scripted.start (snd (fst DeleteSucceeds.run))
              {| status := 200; body := BDeleted 2 |}
              (snd DeleteSucceeds.run) 2 eq_refl eq_refl)
    as (tip & base & snapshot & created & commit & H & _).
  exists tip, base, snapshot, created, commit. exact H.
Defined.

(* ===================================================================== *)
(** ** The tree rewrite run again; the names the delete schema accepts *)
(* ===================================================================== *)

Lemma keep_by_path (items : list DeleteItem) (t u : TreeEntry) :
  te_path t = te_path u -> TreeRewrite.keep items t = TreeRewrite.keep items u.
Proof.
  intros E. unfold TreeRewrite.keep. now rewrite E.
Qed.

(** X5.  Running the same delete batch on the revision it produced removes
    nothing further: on any snapshot whose blobs are the entries of the
    tree submitted before, the rewrite submits that same tree again. *)
Theorem newTree_rerun :
  forall (items : list DeleteItem) (snapshot result : list TreeEntry),
    map TreeRewrite.project
        (filter (fun t => String.eqb (te_type t) "blob") result)
    = TreeRewrite.newTree items snapshot ->
    TreeRewrite.newTree items result = TreeRewrite.newTree items snapshot.
Proof.
  intros items snapshot result H. rewrite <- H.
  unfold TreeRewrite.newTree at 1. rewrite filter_filter. f_equal.
  apply filter_ext_in. intros t Ht.
  destruct (String.eqb (te_type t) "blob") eqn:Eb; [|reflexivity]. simpl.
  assert (In (TreeRewrite.project t) (TreeRewrite.newTree items snapshot)) as Hin.
  { rewrite <- H. apply in_map. apply filter_In. auto. }
  unfold TreeRewrite.newTree in Hin. apply in_map_iff in Hin as (u & Hu & Hin).
  apply filter_In in Hin as [Hin _]. apply filter_In in Hin as [_ Hk].
  rewrite <- Hk. apply keep_by_path.
  change (nt_path (TreeRewrite.project t) = nt_path (TreeRewrite.project u)).
  now rewrite Hu.
Qed.

Lemma newTree_rerun_witness :
  TreeRewrite.newTree (dl_items TreeCreationFails.request)
    [ {| te_path := "docs2"; te_mode := "040000"; te_type := "tree";
         te_sha := "d9"; te_size := None; te_url := "u9" |};
      {| te_path := "docs2/k.md"; te_mode := "100755"; te_type := "blob";
         te_sha := "s5"; te_size := Some 2; te_url := "u7" |} ]
  = TreeRewrite.newTree (dl_items TreeCreationFails.request)
      (Scripted.tree
       ++ [ {| te_path := "docs2/k.md"; te_mode := "100755"; te_type := "blob";
               te_sha := "s5"; te_size := Some 2; te_url := "u6" |} ]).
Proof.
  apply newTree_rerun. reflexivity.
Defined.

Lemma allChars_no_slash (p : ascii -> bool) (s : string) :
  p "/"%char = false -> Schema.allChars p s = true -> Js.includes s "/" = false.
Proof.
  intros Hp. induction s as [|a s IH]; [reflexivity|].
  cbn [Schema.allChars Js.includes]. intros H.
  apply andb_true_iff in H as [Ha Hs]. rewrite (IH Hs), orb_false_r.
  cbn [String.prefix]. destruct (ascii_dec "/" a) as [<-|]; [congruence|reflexivity].
Qed.

(** X6.  In a request the delete schema accepts, neither the owner nor the
    repository name holds a "/": neither can add a segment to the URL of a
    provider call. *)
Theorem accepted_names_have_no_slash :
  forall req : DeleteRequest,
    Schema.deleteItemsSchema req = true ->
    Js.includes (dl_owner req) "/" = false
    /\ Js.includes (dl_repo req) "/" = false.
Proof.
  intros req H. unfold Schema.deleteItemsSchema in H.
  repeat match goal with
         | F : _ && _ = true |- _ => apply andb_true_iff in F as [? ?]
         end.
  unfold Schema.ownerName, Schema.repoName, Schema.matchesClass in *.
  repeat match goal with
         | F : _ && _ = true |- _ => apply andb_true_iff in F as [? ?]
         end.
  split; eapply allChars_no_slash; try eassumption; reflexivity.
Qed.

Lemma accepted_names_have_no_slash_witness :
  Js.includes "alice" "/" = false /\ Js.includes "site" "/" = false.
Proof.
  exact (accepted_names_have_no_slash TreeCreationFails.request eq_refl).
Defined.

(* ===================================================================== *)
(** ** The delete dialog against the deleter *)
(* ===================================================================== *)

Lemma excluded_of_selection (g : list FileItem) (p : string) :
  TreeSpec.excluded (asItems g) p
  = existsb (fun f => ItemType_eqb (type f) TFile && String.eqb (path f) p) g
    || existsb (fun f => ItemType_eqb (type f) TDir
                         && Js.startsWith p (TreeSpec.dirPrefix (path f))) g.
Proof.
  unfold TreeSpec.excluded, asItems. now rewrite !existsb_map.
Qed.

Lemma dialog_dirPaths (files : list FileItem) (x : string) :
  existsb (fun dp => Js.startsWith x dp) (DeleteDialog.dirPaths files)
  = existsb (fun f => ItemType_eqb (type f) TDir
                      && Js.startsWith x (TreeSpec.dirPrefix (path f))) files.
Proof.
  unfold DeleteDialog.dirPaths. now rewrite existsb_map, existsb_filter.
Qed.

Lemma dialog_excluded (files : list FileItem) (p : string) :
  TreeSpec.excluded (DeleteDialog.items files) p
  = TreeSpec.excluded (asItems files) p.
Proof.
  change (DeleteDialog.items files) with (asItems (DeleteDialog.filtered files)).
  rewrite !excluded_of_selection. unfold DeleteDialog.filtered.
  rewrite !existsb_filter.
  set (D := fun x => existsb (fun f => ItemType_eqb (type f) TDir
                        && Js.startsWith x (TreeSpec.dirPrefix (path f))) files).
  assert (existsb (fun f =>
            (if ItemType_eqb (type f) TDir then true
             else negb (existsb (fun dp => Js.startsWith (path f) dp)
                                (DeleteDialog.dirPaths files)))
            && (ItemType_eqb (type f) TDir
                && Js.startsWith p (TreeSpec.dirPrefix (path f)))) files
          = D p) as ->.
  { apply existsb_pointwise. intros f.
    destruct (type f); cbn [ItemType_eqb andb];
      [now rewrite andb_false_r|reflexivity]. }
  fold (D p). destruct (D p) eqn:HD; [now rewrite !orb_true_r|].
  rewrite !orb_false_r. apply existsb_pointwise. intros f.
  destruct (type f); [|reflexivity]. cbn [ItemType_eqb andb].
  destruct (String.eqb (path f) p) eqn:E; [|now rewrite andb_false_r].
  apply String.eqb_eq in E. rewrite dialog_dirPaths, E. fold (D p).
  now rewrite HD.
Qed.

(** X7.  What the delete dialog leaves out of the request changes nothing
    on the server: the tree the deleter submits for the pruned items is the
    tree it would submit for the whole selection. *)
Theorem dialog_pruning_keeps_tree :
  forall (files : list FileItem) (snapshot : list TreeEntry),
    TreeRewrite.newTree (DeleteDialog.items files) snapshot
    = TreeRewrite.newTree (asItems files) snapshot.
Proof.
  intros files snapshot. unfold TreeRewrite.newTree. do 2 f_equal.
  apply filter_ext. intros t. now rewrite !keep_excluded, dialog_excluded.
Qed.

Lemma filter_twice {A} (q : A -> bool) (l : list A) :
  filter q (filter q l) = filter q l.
Proof.
  rewrite filter_filter. apply filter_ext. intros x. now destruct (q x).
Qed.

Lemma dialog_dirPaths_filtered (files : list FileItem) :
  DeleteDialog.dirPaths (DeleteDialog.filtered files)
  = DeleteDialog.dirPaths files.
Proof.
  unfold DeleteDialog.dirPaths, DeleteDialog.filtered. f_equal.
  rewrite filter_filter. apply filter_ext. intros f.
  destruct (type f); reflexivity.
Qed.

(** X8.  The pruning of the delete dialog keeps every selected directory,
    drops no file but those under a selected directory, and pruning what
    is left again changes nothing. *)
Theorem dialog_pruning_idempotent :
  forall files : list FileItem,
    DeleteDialog.filtered (DeleteDialog.filtered files)
    = DeleteDialog.filtered files
    /\ (forall f, In f files -> type f = TDir ->
                  In f (DeleteDialog.filtered files))
    /\ (forall f, In f files -> ~ In f (DeleteDialog.filtered files) ->
                  exists d, In d files /\ type d = TDir
                            /\ Js.startsWith (path f)
                                 (TreeSpec.dirPrefix (path d)) = true).
Proof.
  intros files. split; [|split].
  - unfold DeleteDialog.filtered at 1. rewrite dialog_dirPaths_filtered.
    apply filter_twice.
  - intros f Hin Hty. apply filter_In. split; [exact Hin|].
    now rewrite Hty.
  - intros f Hin Hout. unfold DeleteDialog.filtered in Hout.
    rewrite filter_In in Hout.
    destruct (type f) eqn:Hty; cbn [ItemType_eqb] in Hout.
    + destruct (existsb (fun dp => Js.startsWith (path f) dp)
                        (DeleteDialog.dirPaths files)) eqn:E.
      * rewrite dialog_dirPaths in E. apply existsb_exists in E as (d & Hd & E).
        apply andb_true_iff in E as [Hdt Hs].
        exists d. repeat split; trivial. now destruct (type d).
      * exfalso. apply Hout. split; [exact Hin|reflexivity].
    + exfalso. apply Hout. split; [exact Hin|reflexivity].
Qed.

(** The pruning at work: the file under the selected directory is not
    sent. *)
Example dialog_items_nested :
  DeleteDialog.items Nested.selection
  = [ {| di_path := "docs"; di_type := TDir |};
      {| di_path := "a/b.txt"; di_type := TFile |} ].
Proof. reflexivity. Qed.




(* ===================================================================== *)
(** ** Sorted arrays of strings *)
(* ===================================================================== *)

Lemma insert_perm (x : string) (l : list string) :
  Permutation (JsArray.insert x l) (x :: l).
Proof.
  induction l as [|y l IH]; simpl; [reflexivity|].
  destruct (String.leb x y); [reflexivity|].
  rewrite IH. apply perm_swap.
Qed.

Lemma sort_perm (l : list string) : Permutation (JsArray.sort l) l.
Proof.
  induction l as [|x l IH]; simpl; [reflexivity|].
  rewrite insert_perm. now constructor.
Qed.

Lemma insert_sorted (x : string) (l : list string) :
  Sorted lebP l -> Sorted lebP (JsArray.insert x l).
Proof.
  induction l as [|y l IH]; intros Hs; simpl.
  - repeat constructor.
  - destruct (String.leb x y) eqn:E.
    + constructor; [exact Hs|]. constructor. exact E.
    + inversion Hs as [|? ? Hl Hhd]; subst. constructor; [now apply IH|].
      assert (lebP y x) as Hyx.
      { destruct (String.leb_total x y) as [H|H]; [congruence|exact H]. }
      destruct l as [|z l]; simpl.
      * constructor. exact Hyx.
      * destruct (String.leb x z); constructor; [exact Hyx|].
        now inversion Hhd.
Qed.

Lemma sort_sorted (l : list string) : Sorted lebP (JsArray.sort l).
Proof.
  induction l as [|x l IH]; simpl; [constructor|]. now apply insert_sorted.
Qed.

Lemma sort_of_sorted (l : list string) : Sorted lebP l -> JsArray.sort l = l.
Proof.
  induction l as [|x l IH]; intros Hs; [reflexivity|].
  inversion Hs as [|? ? Hl Hhd]; subst. simpl. rewrite (IH Hl).
  destruct l as [|y l]; [reflexivity|]. simpl.
  inversion Hhd as [|? ? Hxy]; subst. unfold lebP in Hxy. now rewrite Hxy.
Qed.

Lemma uniqueFrom_In (l seen : list string) (x : string) :
  In x (JsArray.uniqueFrom seen l) <-> In x l /\ ~ In x seen.
Proof.
  revert seen. induction l as [|y l IH]; intros seen; simpl; [tauto|].
  destruct (existsb (String.eqb y) seen) eqn:E.
  - apply existsb_exists in E as (z & Hz & E). apply String.eqb_eq in E. subst z.
    rewrite IH. split; [tauto|]. intros [[<-|H] Hn]; [contradiction|tauto].
  - assert (~ In y seen) as Hy.
    { intros H. apply not_true_iff_false in E. apply E.
      apply existsb_exists. exists y. split; [exact H|apply String.eqb_refl]. }
    simpl. rewrite IH. simpl. split.
    + intros [E1|[H Hn]]; [subst; split; [now left|exact Hy]|]. tauto.
    + intros [H Hn]. destruct (string_dec y x) as [E1|E1]; [now left|].
      right. tauto.
Qed.

Lemma uniqueFrom_NoDup (l seen : list string) : NoDup (JsArray.uniqueFrom seen l).
Proof.
  revert seen. induction l as [|y l IH]; intros seen; simpl; [constructor|].
  destruct (existsb (String.eqb y) seen); [apply IH|].
  constructor; [|apply IH]. rewrite uniqueFrom_In. simpl. tauto.
Qed.

Lemma uniqueFrom_of_NoDup (l seen : list string) :
  NoDup l -> (forall x, In x l -> ~ In x seen) ->
  JsArray.uniqueFrom seen l = l.
Proof.
  revert seen. induction l as [|y l IH]; intros seen Hnd Hdis; [reflexivity|].
  inversion Hnd as [|? ? Hy Hl]; subst. simpl.
  destruct (existsb (String.eqb y) seen) eqn:E.
  - apply existsb_exists in E as (z & Hz & E). apply String.eqb_eq in E. subst z.
    exfalso. apply (Hdis y); [now left|exact Hz].
  - f_equal. apply IH; [exact Hl|].
    intros x Hx [<-|Hs]; [contradiction|]. apply (Hdis x); [now right|exact Hs].
Qed.

(* ===================================================================== *)
(** ** The folder lister *)
(* ===================================================================== *)

Section FolderListerFacts.

Variable W : Type.
Variable remote : W -> forall c : FolderCall, W * FResp (folderPayload c).

(** X10.  When the folder lister answers with folders, they are the paths
    of the entries of type "tree" of the tree the provider answered with,
    each as often as it occurs there, in ascending order; [truncated] is
    the provider's flag, false when the provider sent none. *)
Theorem folders_sorted_and_complete :
  forall (req : FoldersRequest) (sess : Session) (w w' : W)
         (resp : FoldersResponse) (tr : list FolderEvent)
         (fs : list string) (t : bool),
    getRepoFolders remote req sess w = (resp, w', tr) ->
    f_body resp = FFolders fs t ->
    exists branch w1 treeSha data,
      remote w (BranchRef (fo_owner req) (fo_repo req) branch)
      = (w1, FOk treeSha)
      /\ remote w1 (RecursiveTree (fo_owner req) (fo_repo req) treeSha)
         = (w', FOk data)
      /\ Sorted lebP fs
      /\ Permutation fs (map te_path (filter isTree (entries data)))
      /\ t = match td_truncated data with Some b => b | None => false end.
Proof.
  intros req sess w w' resp tr fs t.
  unfold getRepoFolders, getRepoFoldersTry.
  destruct (getFoldersSchema req); cbn [negb];
    [|intros [= <- _ _]; discriminate].
  destruct (user sess); [|intros [= <- _ _]; discriminate].
  destruct (match profile sess with
            | Some pr => Js.truthy (github_access_token pr)
            | None => false
            end); [|intros [= <- _ _]; discriminate].
  match goal with
  | |- context [remote w ?c] =>
      destruct (remote w c) as [w1 [treeSha|st txt]] eqn:E1;
        [|intros [= <- _ _]; discriminate]
  end.
  destruct (remote w1 (RecursiveTree (fo_owner req) (fo_repo req) treeSha))
    as [w2 [data|st txt]] eqn:E2; [|intros [= <- _ _]; discriminate].
  intros [= <- <- _] [= <- <-].
  eexists _, w1, treeSha, data. split; [exact E1|]. split; [exact E2|].
  split; [apply sort_sorted|]. split; [apply sort_perm|reflexivity].
Qed.

(** X11.  The folder lister issues at most two calls; it answers 200, 401
    or 500 and nothing else; and when a call is not ok the answer is 500
    with a message, whatever status the provider gave. *)
Theorem folders_failure_is_500 :
  forall (req : FoldersRequest) (sess : Session) (w w' : W)
         (resp : FoldersResponse) (tr : list FolderEvent),
    getRepoFolders remote req sess w = (resp, w', tr) ->
    List.length tr <= 2
    /\ (f_status resp = 200 \/ f_status resp = 401 \/ f_status resp = 500)
    /\ (forall e, In e tr -> fok e = false ->
          f_status resp = 500 /\ exists m, f_body resp = FError m).
Proof.
  intros req sess w w' resp tr.
  unfold getRepoFolders, getRepoFoldersTry.
  destruct (getFoldersSchema req); cbn [negb].
  2:{ intros [= <- _ <-]. cbn. split; [lia|]. split; [auto|]. intros ev []. }
  destruct (user sess).
  2:{ intros [= <- _ <-]. cbn. split; [lia|]. split; [auto|]. intros ev []. }
  destruct (match profile sess with
            | Some pr => Js.truthy (github_access_token pr)
            | None => false
            end).
  2:{ intros [= <- _ <-]. cbn. split; [lia|]. split; [auto|]. intros ev []. }
  match goal with
  | |- context [remote w ?c] =>
      destruct (remote w c) as [w1 [treeSha|st txt]] eqn:E1
  end.
  2:{ intros [= <- _ <-]. cbn. split; [lia|]. split; [auto|].
      intros ev _ _. eauto. }
  destruct (remote w1 (RecursiveTree (fo_owner req) (fo_repo req) treeSha))
    as [w2 [data|st txt]] eqn:E2; intros [= <- _ <-]; cbn;
    (split; [lia|]); (split; [auto|]).
  - intros ev [<-|[<-|[]]]; discriminate.
  - intros ev _ _. eauto.
Qed.

End FolderListerFacts.

Lemma folders_sorted_and_complete_witness :
  exists branch w1 treeSha data,
    FolderProvider.remote FolderRuns.up tt (BranchRef "alice" "site" branch)
    = (w1, FOk treeSha)
    /\ FolderProvider.remote FolderRuns.up w1
         (RecursiveTree "alice" "site" treeSha)
       = (tt, FOk data)
    /\ Sorted lebP ["a"; "docs"]
    /\ Permutation ["a"; "docs"] (map te_path (filter isTree (entries data)))
    /\ false = match td_truncated data with Some b => b | None => false end.
Proof.
  exact (@folders_sorted_and_complete
           _ (FolderProvider.remote FolderRuns.up) FolderProvider.request
           SameParent.session tt tt (fst (fst FolderRuns.listed))
           (snd FolderRuns.listed) ["a"; "docs"] false eq_refl eq_refl).
Defined.

Lemma folders_failure_is_500_witness :
  f_status (fst (fst FolderRuns.failed)) = 500
  /\ exists m, f_body (fst (fst FolderRuns.failed)) = FError m.
Proof.
  apply (proj2 (proj2 (@folders_failure_is_500
                         _ (FolderProvider.remote FolderRuns.treeFails)
                         FolderProvider.request SameParent.session tt tt
                         (fst (fst FolderRuns.failed)) (snd FolderRuns.failed)
                         eq_refl))
               {| fcall := RecursiveTree "alice" "site" "c0"; fok := false |}).
  - right. left. reflexivity.
  - reflexivity.
Defined.

(* ===================================================================== *)
(** ** The move dialog: its options and what it sends *)
(* ===================================================================== *)

(** X12.  The options of the destination select are "Root" followed by the
    folders of the response, each once, in ascending order. *)
Theorem folderOptions_sorted_unique :
  forall folders : list string,
    exists rest,
      MoveDialog.folderOptions folders = "Root" :: rest
      /\ Sorted lebP rest
      /\ NoDup rest
      /\ forall x, In x rest <-> In x folders.
Proof.
  intros folders. exists (JsArray.sort (JsArray.unique folders)).
  split; [reflexivity|]. split; [apply sort_sorted|]. split.
  - eapply Permutation_NoDup; [symmetry; apply sort_perm|].
    apply uniqueFrom_NoDup.
  - intros x. split.
    + intros H. apply (Permutation_in _ (sort_perm _)) in H.
      now apply uniqueFrom_In in H.
    + intros H. apply (Permutation_in _ (Permutation_sym (sort_perm _))).
      apply uniqueFrom_In. split; [exact H|intros []].
Qed.

(** X13.  On a tree in which no directory path occurs twice, the select
    offers "Root" and then the folders exactly as the folder lister
    returned them. *)
Theorem folderOptions_of_lister :
  forall data : TreeData,
    NoDup (map te_path (filter isTree (entries data))) ->
    MoveDialog.folderOptions (folders data) = "Root" :: folders data.
Proof.
  intros data Hnd. unfold MoveDialog.folderOptions. f_equal.
  assert (NoDup (folders data)) as Hs.
  { eapply Permutation_NoDup; [symmetry; apply sort_perm|exact Hnd]. }
  unfold JsArray.unique. rewrite uniqueFrom_of_NoDup; [|exact Hs|intros x _ []].
  apply sort_of_sorted. apply sort_sorted.
Qed.

Lemma folderOptions_of_lister_witness :
  MoveDialog.folderOptions (folders FolderProvider.site) = ["Root"; "a"; "docs"].
Proof.
  refine (eq_trans (folderOptions_of_lister FolderProvider.site _) eq_refl).
  repeat constructor; simpl; intuition discriminate.
Defined.

Lemma rebuild_files (files : list FileItem) :
  map (fun f => {| path := path f; sha := sha f; type := type f |}) files = files.
Proof.
  induction files as [|[p s t] files IH]; simpl; [reflexivity|]. now rewrite IH.
Qed.

Lemma rejects_clientCycle (d : string) (f : FileItem) :
  rejects d f = true -> clientCycle d f = true.
Proof.
  unfold rejects, clientCycle, checkItem. destruct (type f).
  - destruct (String.eqb d (containingFolder (path f))); discriminate.
  - destruct (String.eqb d (containingFolder (path f))); [discriminate|].
    destruct (String.eqb d (path f)); [reflexivity|]. simpl.
    destruct (Js.truthy d); simpl; [|discriminate].
    destruct (Js.startsWith d (path f ++ "/")); [reflexivity|discriminate].
Qed.

Lemma handleMove_sent (files : list FileItem) (owner repo branch current
                       dest : string) (req : MoveRequest) :
  MoveDialog.handleMove files owner repo branch current dest = Some req ->
  mv_files req = files
  /\ mv_destination req = resolve dest
  /\ resolve dest <> current
  /\ existsb (clientCycle (resolve dest)) files = false.
Proof.
  unfold MoveDialog.handleMove.
  destruct (invalid (isInvalidDestination files current dest)) eqn:E;
    [discriminate|].
  intros [= <-]. cbn. rewrite rebuild_files. repeat split.
  - intros H. apply not_true_iff_false in E. apply E, invalid_iff. now left.
  - apply not_true_iff_false. intros H.
    apply not_true_iff_false in E. apply E, invalid_iff. now right.
Qed.

(** X14.  A request the move dialog sends is never answered with the 400
    of the cycle check, on any provider and for any session. *)
Theorem dialog_request_never_400 :
  forall (files : list FileItem) (owner repo branch current dest : string)
         (req : MoveRequest),
    MoveDialog.handleMove files owner repo branch current dest = Some req ->
    forall (W : Type) (remote : W -> forall c : Call, W * Resp (payload c))
           (fuel : nat) (sess : Session) (w w' : W) (resp : HttpResponse)
           (tr : list Event),
      moveFiles remote fuel req sess w = (Ret resp, w', tr) ->
      status resp <> 400.
Proof.
  intros files owner repo branch current dest req Hsent.
  destruct (handleMove_sent _ _ _ _ _ _ Hsent) as (Hf & Hd & _ & Hc).
  intros W remote fuel sess w w' resp tr Hrun Hst.
  pose proof (moveFiles_400 _ _ _ _ _ Hrun Hst) as Hrej.
  rewrite Hf, Hd in Hrej. unfold serverRejects in Hrej.
  apply existsb_exists in Hrej as (f & Hin & Hr).
  apply rejects_clientCycle in Hr.
  apply not_true_iff_false in Hc. apply Hc.
  apply existsb_exists. eauto.
Qed.

(** X15.  When every selected item lies in the current folder, a request
    the move dialog sends has no item for the handler to skip or to
    refuse: each one is moved. *)
Theorem dialog_request_all_proceed :
  forall (files : list FileItem) (owner repo branch current dest : string)
         (req : MoveRequest),
    MoveDialog.handleMove files owner repo branch current dest = Some req ->
    (forall f, In f files -> containingFolder (path f) = current) ->
    forall f, In f (mv_files req) ->
              checkItem (mv_destination req) f = Proceed.
Proof.
  intros files owner repo branch current dest req Hsent Hhere f Hin.
  destruct (handleMove_sent _ _ _ _ _ _ Hsent) as (Hf & Hd & Hne & Hc).
  rewrite Hf in Hin. rewrite Hd.
  assert (clientCycle (resolve dest) f = false) as Hcf.
  { apply not_true_iff_false. intros H. apply not_true_iff_false in Hc.
    apply Hc. apply existsb_exists. eauto. }
  apply String.eqb_neq in Hne.
  unfold checkItem. rewrite (Hhere f Hin), Hne.
  unfold clientCycle in Hcf. destruct (type f); [reflexivity|].
  apply orb_false_iff in Hcf as [-> ->]. now rewrite andb_false_r.
Qed.

(** X16.  With the Move button enabled a request is sent; it goes to the
    repository root exactly when the option "Root" is chosen, and never to
    a folder named "Root". *)
Theorem enabled_move_destination :
  forall (files : list FileItem) (owner repo branch current dest : string)
         (isMoving : bool),
    MoveDialog.canMove files current dest isMoving = true ->
    exists req,
      MoveDialog.handleMove files owner repo branch current dest = Some req
      /\ (mv_destination req = EmptyString <-> dest = "Root")
      /\ mv_destination req <> "Root".
Proof.
  intros files owner repo branch current dest isMoving H.
  unfold MoveDialog.canMove in H. apply negb_true_iff in H.
  apply orb_false_iff in H as [H Hinv]. apply orb_false_iff in H as [_ Ht].
  apply negb_false_iff in Ht.
  unfold MoveDialog.handleMove. rewrite Hinv. eexists. split; [reflexivity|].
  cbn. unfold resolve. destruct (String.eqb dest "Root") eqn:E.
  - apply String.eqb_eq in E. split; [tauto|discriminate].
  - apply String.eqb_neq in E. split; [|exact E]. split; [|contradiction].
    intros ->. discriminate.
Qed.

Lemma dialog_request_never_400_witness :
  status {| status := 200;
            body := BMoved 1 0 [ {| src := "a/b.txt"; dest := "c/b.txt";
                                    d_status := "moved" |} ] |} <> 400.
Proof.
  exact (@dialog_request_never_400
           MoveRuns.selection "alice" "site" "main" "a" "c" MoveRuns.request
           eq_refl _ (Scripted.remote (Scripted.script [])) 8
           SameParent.session Scripted.start (snd (fst MoveRuns.run)) _
           (snd MoveRuns.run) eq_refl).
Defined.

Lemma dialog_request_all_proceed_witness :
  checkItem "c" {| path := "a/b.txt"; sha := "s1"; type := TFile |} = Proceed.
Proof.
  apply (@dialog_request_all_proceed
           MoveRuns.selection "alice" "site" "main" "a" "c" MoveRuns.request
           eq_refl).
  - intros f [<-|[]]. reflexivity.
  - left. reflexivity.
Defined.

Lemma enabled_move_destination_witness :
  exists req,
    MoveDialog.handleMove MoveRuns.selection "alice" "site" "main" "a" "c"
    = Some req
    /\ (mv_destination req = EmptyString <-> "c" = "Root")
    /\ mv_destination req <> "Root".
Proof.
  exact (@enabled_move_destination
           MoveRuns.selection "alice" "site" "main" "a" "c" false eq_refl).
Defined.

(* ===================================================================== *)
(** ** What a computation emits and returns *)
(* ===================================================================== *)

Section Computations.

Variable W : Type.
Variable remote : W -> forall c : Call, W * Resp (payload c).

Lemma emits_ret {A} (P : Event -> Prop) (a : A) : Emits P (@Mon.ret W A a).
Proof. intros w. constructor. Qed.

Lemma emits_throw {A} (P : Event -> Prop) (e : Exn) : Emits P (@Mon.throw W A e).
Proof. intros w. constructor. Qed.

Lemma emits_diverge {A} (P : Event -> Prop) : Emits P (@Mon.diverge W A).
Proof. intros w. constructor. Qed.

Lemma emits_fetch (P : Event -> Prop) (c : Call) :
  (forall b, P {| call := c; ok := b |}) -> Emits P (Mon.fetch remote c).
Proof.
  intros H w. unfold Mon.fetch. destruct (remote w c) as [w1 r]. simpl.
  constructor; [apply H|constructor].
Qed.

Lemma emits_bind {A B} (P : Event -> Prop) (m : Mon.M W A) (k : A -> Mon.M W B) :
  Emits P m -> (forall a, Emits P (k a)) -> Emits P (Mon.bind m k).
Proof.
  intros Hm Hk w. unfold Mon.bind. specialize (Hm w).
  destruct (m w) as [[[a|e|] w1] t1]; simpl in *; try exact Hm.
  specialize (Hk a w1). destruct (k a w1) as [[o w2] t2]. simpl in *.
  apply Forall_app. split; assumption.
Qed.


Lemma emits_forOf {A S} (P : Event -> Prop) (l : list A)
      (body : S -> A -> Mon.M W S) :
  (forall s x, Emits P (body s x)) -> forall s, Emits P (Mon.forOf l s body).
Proof.
  intros Hb. induction l as [|x l IH]; intros s; cbn [Mon.forOf].
  - apply emits_ret.
  - apply emits_bind; [apply Hb|exact IH].
Qed.


Lemma returns_ret {A} (Q : A -> Prop) (a : A) : Q a -> Returns Q (@Mon.ret W A a).
Proof. intros H w a' w' tr [= <- _ _]. exact H. Qed.

Lemma returns_bind {A B} (Q1 : A -> Prop) (Q : B -> Prop)
      (m : Mon.M W A) (k : A -> Mon.M W B) :
  Returns Q1 m -> (forall a, Q1 a -> Returns Q (k a)) ->
  Returns Q (Mon.bind m k).
Proof.
  intros Hm Hk w b w' tr. unfold Mon.bind.
  destruct (m w) as [[[a|e|] w1] t1] eqn:E; try discriminate.
  destruct (k a w1) as [[o w2] t2] eqn:E2. intros [= -> _ _].
  exact (Hk a (Hm _ _ _ _ E) _ _ _ _ E2).
Qed.

Lemma returns_forOf {A S} (I : S -> Prop) (l : list A)
      (body : S -> A -> Mon.M W S) :
  (forall s x, I s -> Returns I (body s x)) ->
  forall s, I s -> Returns I (Mon.forOf l s body).
Proof.
  intros Hb. induction l as [|x l IH]; intros s Hs; cbn [Mon.forOf].
  - now apply returns_ret.
  - eapply returns_bind; [apply Hb, Hs|]. intros s1 Hs1. now apply IH.
Qed.

Lemma returns_forOfReturn {A S V} (I : S -> Prop) (R : V -> Prop)
      (l : list A) (body : S -> A -> Mon.M W (S + V)) :
  (forall s x, I s ->
     Returns (fun r => match r with inl s1 => I s1 | inr v => R v end)
             (body s x)) ->
  forall s, I s ->
    Returns (fun r => match r with inl s1 => I s1 | inr v => R v end)
            (Mon.forOfReturn l s body).
Proof.
  intros Hb. induction l as [|x l IH]; intros s Hs; cbn [Mon.forOfReturn].
  - now apply returns_ret.
  - eapply returns_bind; [apply Hb, Hs|]. intros [s1|v] Hr.
    + now apply IH.
    + now apply returns_ret.
Qed.

End Computations.

(* ===================================================================== *)
(** ** The batch mover: its calls, its counters, its refusals *)
(* ===================================================================== *)

Section MoverRuns.

Variable W : Type.
Variable remote : W -> forall c : Call, W * Resp (payload c).






Lemma counted_skip (t : Tally) (d : Detail) :
  Counted t -> knownStatus d -> isMoved d = false -> Counted (skip t d).
Proof.
  intros (Hm & Hs & Hk) Hd Hn. unfold Counted, skip, countMoved, countSkipped.
  cbn [movedCount skippedCount details]. rewrite !filter_app, !length_app.
  cbn [filter]. rewrite Hn. cbn. repeat split.
  - rewrite Hm. unfold countMoved. lia.
  - rewrite Hs. unfold countSkipped. lia.
  - apply Forall_app. split; [exact Hk|]. now constructor.
Qed.

Lemma counted_record (t : Tally) (s d : string) (r : MoveResult) :
  Counted t -> mr_status r = "moved" \/ mr_status r = "skipped" ->
  Counted (record t s d r).
Proof.
  intros (Hm & Hs & Hk) Hr. unfold Counted, record, countMoved, countSkipped.
  cbn [movedCount skippedCount details]. rewrite !filter_app, !length_app.
  unfold isMoved at 2 4. cbn [filter d_status].
  assert (knownStatus {| src := s; dest := d; d_status := mr_status r |}) as Hd.
  { unfold knownStatus. cbn. tauto. }
  destruct Hr as [-> | ->]; cbn; repeat split;
    try (rewrite Hm; unfold countMoved; lia);
    try (rewrite Hs; unfold countSkipped; lia);
    (apply Forall_app; split; [exact Hk|]; constructor; [|constructor]);
    unfold knownStatus; cbn; tauto.
Qed.

Lemma moveSingleFile_returns (owner repo branch src s dst : string) :
  Returns (fun r => mr_status r = "moved" \/ mr_status r = "skipped")
          (moveSingleFile remote owner repo branch src s dst).
Proof.
  intros w r w' tr Hrun.
  pose proof (moveSingleFile_runs remote owner repo branch src s dst w) as R.
  rewrite Hrun in R. cbn in R. inversion R; subst; cbn; tauto.
Qed.

Lemma moveItem_counted (owner repo branch destination : string) (fuel : nat)
      (t : Tally) (file : FileItem) :
  Counted t ->
  Returns (fun r => match r with
                    | inl t1 => Counted t1
                    | inr resp => exists msg, body resp = BError msg
                    end)
          (moveItem remote owner repo branch fuel destination t file).
Proof.
  intros Ht. unfold moveItem.
  destruct (checkItem destination file) eqn:E.
  - apply returns_ret. apply counted_skip; [exact Ht| |].
    + unfold checkItem in E. unfold knownStatus. cbn.
      destruct (type file);
        destruct (String.eqb destination (containingFolder (path file)));
        try discriminate; try (injection E as <-; tauto);
        destruct (String.eqb destination (path file)
                  || Js.truthy destination
                     && Js.startsWith destination (path file ++ "/"));
        discriminate.
    + unfold checkItem in E. unfold isMoved. cbn.
      destruct (type file);
        destruct (String.eqb destination (containingFolder (path file)));
        try discriminate; try (injection E as <-; reflexivity);
        destruct (String.eqb destination (path file)
                  || Js.truthy destination
                     && Js.startsWith destination (path file ++ "/"));
        discriminate.
  - apply returns_ret. cbn. eauto.
  - destruct (type file).
    + eapply returns_bind; [apply moveSingleFile_returns|].
      intros r Hr. apply returns_ret. now apply counted_record.
    + eapply returns_bind with (Q1 := fun _ => True); [intros ? ? ? ? _; exact I|].
      intros dirFiles _.
      eapply returns_bind with (Q1 := Counted).
      * apply returns_forOf; [|exact Ht]. intros t0 df Ht0.
        eapply returns_bind; [apply moveSingleFile_returns|].
        intros r Hr. apply returns_ret. now apply counted_record.
      * intros t1 Ht1. now apply returns_ret.
Qed.

(** X18.  In a success response of the batch mover the counters agree with
    the details: [moved] is the number of details with status "moved",
    [skipped] the number of the others, together the number of details; and
    a detail has one of four statuses. *)
Theorem mover_counts_agree_with_details :
  forall (fuel : nat) (req : MoveRequest) (sess : Session) (w w' : W)
         (resp : HttpResponse) (tr : list Event) (m s : nat) (ds : list Detail),
    moveFiles remote fuel req sess w = (Ret resp, w', tr) ->
    body resp = BMoved m s ds ->
    m = countMoved ds /\ s = countSkipped ds /\ m + s = List.length ds
    /\ Forall knownStatus ds.
Proof.
  intros fuel req sess w w' resp tr m s ds Hrun Hbody.
  enough (m = countMoved ds /\ s = countSkipped ds /\ Forall knownStatus ds)
    as (Hm & Hs & Hk).
  { repeat split; trivial. subst m s. unfold countMoved, countSkipped.
    clear. induction ds as [|d ds IH]; [reflexivity|]. cbn [filter].
    destruct (isMoved d); cbn [negb List.length]; lia. }
  revert Hrun. unfold moveFiles, Mon.catch.
  destruct (negb (moveFilesSchema req)).
  { cbn. intros [= <- _ _]. discriminate. }
  destruct (user sess); [|cbn; intros [= <- _ _]; discriminate].
  destruct (profile sess) as [pr|]; [|cbn; intros [= <- _ _]; discriminate].
  destruct (Js.truthy (github_access_token pr));
    [|cbn; intros [= <- _ _]; discriminate].
  match goal with
  | |- context [Mon.bind ?loop ?k w] =>
      assert (Returns (fun r => forall m s ds, body r = BMoved m s ds ->
                         m = countMoved ds /\ s = countSkipped ds
                         /\ Forall knownStatus ds)
                      (Mon.bind loop k)) as Hb;
        [|destruct (Mon.bind loop k w) as [[[a|e|] w1] t1] eqn:E]
  end.
  - eapply returns_bind.
    + apply returns_forOfReturn
        with (I := Counted) (R := fun resp => exists msg, body resp = BError msg).
      * intros t file Ht. now apply moveItem_counted.
      * repeat split; constructor.
    + intros [t|r0] Hr.
      * apply returns_ret. intros ? ? ? [= <- <- <-]. exact Hr.
      * apply returns_ret. destruct Hr as [msg Hr]. intros ? ? ? Hx.
        rewrite Hr in Hx. discriminate.
  - intros [= <- _ _]. exact (Hb _ _ _ _ E _ _ _ Hbody).
  - cbn. intros [= <- _ _]. destruct e; discriminate Hbody.
  - discriminate.
Qed.

End MoverRuns.

Section MoverGate.

Variable W : Type.
Variable remote : W -> forall c : Call, W * Resp (payload c).

(** X19.  The batch mover issues a provider call only for a request with a
    non-empty owner and repository name, a signed-in user and a stored
    token; a request that fails the schema is answered with 500, not 400,
    and without a call. *)
Theorem mover_calls_need_session :
  forall (fuel : nat) (req : MoveRequest) (sess : Session) (w w' : W)
         (out : Outcome HttpResponse) (tr : list Event),
    moveFiles remote fuel req sess w = (out, w', tr) ->
    (tr <> [] ->
     mv_owner req <> EmptyString /\ mv_repo req <> EmptyString
     /\ user sess <> None
     /\ exists pr, profile sess = Some pr
                   /\ github_access_token pr <> EmptyString)
    /\ (moveFilesSchema req = false ->
        out = Ret {| status := 500; body := BUncaught ZodError |} /\ tr = []).
Proof.
  intros fuel req sess w w' out tr. unfold moveFiles, Mon.catch.
  destruct (moveFilesSchema req) eqn:Hs; cbn [negb].
  2:{ cbn. intros [= <- _ <-]. split; [intros H; now contradiction H|auto]. }
  destruct (user sess) eqn:Hu.
  2:{ cbn. intros [= _ _ <-]. split; [intros H; now contradiction H|discriminate]. }
  destruct (profile sess) as [pr|] eqn:Hp.
  2:{ cbn. intros [= _ _ <-]. split; [intros H; now contradiction H|discriminate]. }
  destruct (Js.truthy (github_access_token pr)) eqn:Ht.
  2:{ cbn. intros [= _ _ <-]. split; [intros H; now contradiction H|discriminate]. }
  intros _. split; [|discriminate]. intros _.
  unfold moveFilesSchema in Hs. apply andb_true_iff in Hs as [Ho Hr].
  repeat split.
  - intros E. rewrite E in Ho. discriminate.
  - intros E. rewrite E in Hr. discriminate.
  - discriminate.
  - exists pr. split; [reflexivity|]. intros E. rewrite E in Ht. discriminate.
Qed.

(** X20.  A directory whose listing is refused is moved as if it were
    empty: the handler answers with success, nothing moved and nothing
    skipped, after that single call; and the toast of the move dialog then
    reads "1 moved". *)
Theorem unlisted_directory_reported_moved :
  forall (fuel : nat) (req : MoveRequest) (sess : Session) (pr : Profile)
         (file : FileItem) (w w1 : W) (st : nat) (txt : string),
    moveFilesSchema req = true ->
    user sess <> None ->
    profile sess = Some pr ->
    Js.truthy (github_access_token pr) = true ->
    mv_files req = [file] ->
    type file = TDir ->
    checkItem (mv_destination req) file = Proceed ->
    remote w (GetContents (mv_owner req) (mv_repo req) (path file)
                (match mv_branch req with Some b => b | None => "main" end))
    = (w1, RespErr st txt) ->
    moveFiles remote (S fuel) req sess w
    = (Ret {| status := 200; body := BMoved 0 0 [] |}, w1,
       [ {| call := GetContents (mv_owner req) (mv_repo req) (path file)
                      (match mv_branch req with Some b => b | None => "main" end);
            ok := false |} ])
    /\ MoveDialog.movedToast (mv_files req) (Some (0, 0)) = "1 moved".
Proof.
  intros fuel req sess pr file w w1 st txt Hs Hu Hp Ht Hf Hty Hc Hr.
  split; [|now rewrite Hf].
  unfold moveFiles, Mon.catch. rewrite Hs, Hp, Ht, Hf. cbn [negb].
  destruct (user sess); [|congruence].
  cbn [Mon.forOfReturn]. unfold moveItem. rewrite Hc, Hty.
  cbn [listFilesRecursively]. unfold Mon.bind, Mon.fetch. rewrite Hr.
  reflexivity.
Qed.

End MoverGate.

Lemma mover_calls_need_session_witness :
  mv_owner MoveRuns.request <> EmptyString
  /\ mv_repo MoveRuns.request <> EmptyString
  /\ user SameParent.session <> None
  /\ exists pr, profile SameParent.session = Some pr
                /\ github_access_token pr <> EmptyString.
Proof.
  apply (proj1 (@mover_calls_need_session
                  _ (Scripted.remote (Scripted.script [])) 8 MoveRuns.request
                  SameParent.session Scripted.start
                  (snd (fst MoveRuns.run)) (fst (fst MoveRuns.run))
                  (snd MoveRuns.run) eq_refl)).
  discriminate.
Defined.

Lemma unlisted_directory_reported_moved_witness :
  MoveRuns.unlistedRun
  = (Ret {| status := 200; body := BMoved 0 0 [] |},
     {| Scripted.answered := 1; Scripted.head := "c0" |},
     [ {| call := GetContents "alice" "site" "docs" "main"; ok := false |} ])
  /\ MoveDialog.movedToast (mv_files MoveRuns.dirRequest) (Some (0, 0))
     = "1 moved".
Proof.
  refine (@unlisted_directory_reported_moved
            _ (Scripted.remote (Scripted.script [0])) 7 MoveRuns.dirRequest
            SameParent.session _ {| path := "docs"; sha := "d2"; type := TDir |}
            Scripted.start _ 502 "down"
            eq_refl _ eq_refl eq_refl eq_refl eq_refl eq_refl eq_refl).
  discriminate.
Defined.

Lemma mover_counts_agree_with_details_witness :
  2 = countMoved
        [ {| src := "docs/x.md"; dest := "c/docs/x.md"; d_status := "moved" |};
          {| src := "docs/sub/y.md"; dest := "c/docs/sub/y.md";
             d_status := "moved" |} ]
  /\ 0 = countSkipped
           [ {| src := "docs/x.md"; dest := "c/docs/x.md"; d_status := "moved" |};
             {| src := "docs/sub/y.md"; dest := "c/docs/sub/y.md";
                d_status := "moved" |} ].
Proof.
  destruct (@mover_counts_agree_with_details
              _ (Scripted.remote (Scripted.script [])) 8 MoveRuns.dirRequest
              SameParent.session Scripted.start (snd (fst MoveRuns.dirRun))
              _ (snd MoveRuns.dirRun) 2 0 _ eq_refl eq_refl)
    as (H1 & H2 & _).
  split; assumption.
Defined.

(* ===================================================================== *)
(** ** Where the mover puts a blob *)
(* ===================================================================== *)

Lemma prefix_nil (s : string) : String.prefix EmptyString s = true.
Proof. now destruct s. Qed.

Lemma includes_lastIndexOf (s : string) :
  Js.includes s "/"
  = match Js.lastIndexOf s "/" with Some _ => true | None => false end.
Proof.
  induction s as [|a s IH]; [reflexivity|].
  cbn [Js.includes Js.lastIndexOf String.prefix]. rewrite IH, prefix_nil.
  destruct (Js.lastIndexOf s "/"); [apply orb_true_r|]. rewrite orb_false_r.
  destruct (ascii_dec "/" a) as [<-|Hn]; [reflexivity|].
  destruct (Ascii.eqb a "/") eqn:E; [|reflexivity].
  apply Ascii.eqb_eq in E. congruence.
Qed.

Lemma split_whole (s : string) :
  Js.lastIndexOf s "/" = None -> Js.split s "/" = [s].
Proof.
  induction s as [|a s IH]; [reflexivity|]. cbn [Js.lastIndexOf Js.split].
  destruct (Js.lastIndexOf s "/"); [discriminate|].
  destruct (Ascii.eqb a "/"); [discriminate|]. intros _. now rewrite IH.
Qed.

Lemma split_two (s : string) (i : nat) :
  Js.lastIndexOf s "/" = Some i -> exists w v ws, Js.split s "/" = w :: v :: ws.
Proof.
  revert i. induction s as [|a s IH]; intros i; [discriminate|].
  cbn [Js.lastIndexOf Js.split].
  destruct (Ascii.eqb a "/") eqn:E.
  - intros _. destruct (Js.split s "/") as [|v ws] eqn:Es.
    + exfalso. exact (split_nonempty _ _ Es).
    + eauto.
  - destruct (Js.lastIndexOf s "/") as [j|]; [|discriminate]. intros _.
    destruct (IH j eq_refl) as (w & v & ws & ->). eauto.
Qed.

(** The name after the last slash, by position. *)
Lemma baseName_drop (p : string) :
  baseName p = match Js.lastIndexOf p "/" with
               | Some i => Js.drop (S i) p
               | None => p
               end.
Proof.
  unfold baseName, Js.pop. induction p as [|a p IH]; [reflexivity|].
  cbn [Js.lastIndexOf Js.split].
  destruct (Ascii.eqb a "/") eqn:E.
  - destruct (Js.split p "/") as [|v ws] eqn:Es.
    + exfalso. exact (split_nonempty _ _ Es).
    + change (last ("" :: v :: ws) "") with (last (v :: ws) ""). rewrite IH.
      destruct (Js.lastIndexOf p "/"); reflexivity.
  - destruct (Js.lastIndexOf p "/") as [j|] eqn:El.
    + destruct (split_two _ El) as (w & v & ws & Es). rewrite Es in IH |- *.
      change (last (String a w :: v :: ws) "") with (last (v :: ws) "").
      change (last (w :: v :: ws) "") with (last (v :: ws) "") in IH.
      exact IH.
    + now rewrite (split_whole _ El).
Qed.

Lemma segments_no_slash (p : string) :
  Forall (fun w => Js.lastIndexOf w "/" = None) (Js.split p "/").
Proof.
  induction p as [|a p IH]; [repeat constructor|]. cbn [Js.split].
  destruct (Ascii.eqb a "/") eqn:E; [now constructor|].
  destruct (Js.split p "/") as [|w ws]; [repeat constructor; cbn; now rewrite E|].
  inversion IH as [|? ? Hw Hws]; subst. constructor; [|exact Hws].
  cbn [Js.lastIndexOf]. now rewrite Hw, E.
Qed.

Lemma baseName_no_slash (p : string) : Js.lastIndexOf (baseName p) "/" = None.
Proof.
  unfold baseName, Js.pop. pose proof (segments_no_slash p) as H.
  induction (Js.split p "/") as [|w ws IH]; [reflexivity|].
  inversion H as [|? ? Hw Hws]; subst.
  destruct ws as [|v ws]; [exact Hw|]. now apply IH.
Qed.

Lemma lastIndexOf_app (d s : string) (c : ascii) :
  Js.lastIndexOf (d ++ s) c
  = match Js.lastIndexOf s c with
    | Some i => Some (String.length d + i)
    | None => Js.lastIndexOf d c
    end.
Proof.
  induction d as [|a d IH]; cbn [String.append Js.lastIndexOf String.length].
  - now destruct (Js.lastIndexOf s c).
  - rewrite IH. now destruct (Js.lastIndexOf s c).
Qed.

Lemma take_app (d s : string) : Js.take (String.length d + 0) (d ++ s) = d.
Proof.
  rewrite Nat.add_0_r. induction d as [|a d IH]; cbn; [now destruct s|].
  now rewrite IH.
Qed.

Lemma drop_app (d s : string) (k : nat) :
  Js.drop (String.length d + k) (d ++ s) = Js.drop k s.
Proof.
  induction d as [|a d IH]; cbn; [reflexivity|exact IH].
Qed.

(** X21.  A file moved by the batch mover lands in the destination folder
    under its own name: the containing folder of the target path is the
    destination, and its last segment is the last segment of the source
    path. *)
Theorem file_target_in_destination :
  forall p destination : string,
    containingFolder (under destination (baseName p)) = destination
    /\ baseName (under destination (baseName p)) = baseName p.
Proof.
  intros p d. pose proof (baseName_no_slash p) as Hn.
  unfold under. destruct d as [|a d]; cbn [Js.truthy String.eqb negb].
  - split.
    + unfold containingFolder. now rewrite includes_lastIndexOf, Hn.
    + now rewrite baseName_drop, Hn.
  - set (dd := String a d).
    assert (Js.lastIndexOf (dd ++ "/" ++ baseName p) "/"
            = Some (String.length dd + 0)) as Hl.
    { rewrite lastIndexOf_app. cbn [String.append Js.lastIndexOf].
      now rewrite Hn. }
    split.
    + unfold containingFolder. rewrite includes_lastIndexOf, Hl.
      apply take_app.
    + rewrite baseName_drop, Hl.
      replace (S (String.length dd + 0)) with (String.length dd + 1) by lia.
      now rewrite drop_app.
Qed.

Section MoverTargets.

Variable W : Type.
Variable remote : W -> forall c : Call, W * Resp (payload c).


(** X23.  The single-item mover creates the destination with the content it
    read from the source, unchanged, and overwrites a file already there:
    the identifier the probe found is passed as the precondition of the
    create/update, none when the probe found no file. *)
Theorem destination_created_from_source :
  forall (owner repo branch srcPath srcSha destPath content sha0 : string)
         (w w1 w2 : W) (probe : Resp Contents),
    srcPath <> destPath ->
    remote w (GetContents owner repo srcPath branch)
    = (w1, RespOk (FileObject content sha0)) ->
    remote w1 (GetContents owner repo destPath branch) = (w2, probe) ->
    nth_error
      (map call (snd (moveSingleFile remote owner repo branch
                        srcPath srcSha destPath w))) 2
    = Some (PutContents owner repo destPath
              ("Move " ++ srcPath ++ " to " ++ destPath) (Some content) branch
              (match probe with
               | RespOk (FileObject _ existing) => Some existing
               | _ => None
               end)).
Proof.
  intros owner repo branch srcPath srcSha destPath content sha0 w w1 w2 probe
         Hne Hsrc Hdst.
  apply String.eqb_neq in Hne. unfold moveSingleFile. rewrite Hne.
  unfold Mon.bind, Mon.fetch. rewrite Hsrc. cbn. rewrite Hdst. cbn.
  match goal with
  | |- context [remote w2 ?c] => destruct (remote w2 c) as [w3 [[]|st3 t3]]
  end; cbn; [|reflexivity].
  match goal with
  | |- context [remote w3 ?c] => destruct (remote w3 c) as [w4 [[]|st4 t4]]
  end; reflexivity.
Qed.

End MoverTargets.


Lemma destination_created_from_source_witness :
  nth_error
    (map call (snd (moveSingleFile (Scripted.remote Traversal.anyFile)
                      "alice" "site" "main" "a/b.txt" "s1" "c/b.txt"
                      Scripted.start))) 2
  = Some (PutContents "alice" "site" "c/b.txt" "Move a/b.txt to c/b.txt"
            (Some "QQ==") "main" (Some "s0")).
Proof.
  refine (@destination_created_from_source
            _ (Scripted.remote Traversal.anyFile) "alice" "site" "main"
            "a/b.txt" "s1" "c/b.txt" "QQ==" "s0" Scripted.start _ _
            (RespOk (FileObject "QQ==" "s0")) _ eq_refl eq_refl).
  discriminate.
Defined.

(* ===================================================================== *)
(** ** What a success of the mover means *)
(* ===================================================================== *)

Section MoverSuccess.

Variable W : Type.
Variable remote : W -> forall c : Call, W * Resp (payload c).

(** X24.  When the single-item mover returns "moved" it has issued exactly
    four calls: the read of the source and the probe of the destination, a
    create/update of the destination that was answered ok, and a delete of
    the source, under the identifier it was given, that was answered ok. *)
Theorem moved_means_created_and_deleted :
  forall (owner repo branch srcPath srcSha destPath : string)
         (w w' : W) (r : MoveResult) (tr : list Event),
    moveSingleFile remote owner repo branch srcPath srcSha destPath w
    = (Ret r, w', tr) ->
    mr_status r = "moved" ->
    exists probe msg content destSha dmsg,
      tr = [ {| call := GetContents owner repo srcPath branch; ok := true |};
             {| call := GetContents owner repo destPath branch; ok := probe |};
             {| call := PutContents owner repo destPath msg content branch destSha;
                ok := true |};
             {| call := DeleteContents owner repo srcPath dmsg srcSha branch;
                ok := true |} ].
Proof.
  intros owner repo branch srcPath srcSha destPath w w' r tr Hrun Hst.
  pose proof (moveSingleFile_runs remote owner repo branch srcPath srcSha
                destPath w) as R.
  rewrite Hrun in R. cbn in R. inversion R; subst; try discriminate.
  do 5 eexists. reflexivity.
Qed.

Lemma clean_ret {A} (a : A) : Clean (@Mon.ret W A a).
Proof. intros w a' w' tr [= _ _ <-]. constructor. Qed.

Lemma clean_bind {A B} (m : Mon.M W A) (k : A -> Mon.M W B) :
  Clean m -> (forall a, Clean (k a)) -> Clean (Mon.bind m k).
Proof.
  intros Hm Hk w b w' tr. unfold Mon.bind.
  destruct (m w) as [[[a|e|] w1] t1] eqn:E; try discriminate.
  destruct (k a w1) as [[o w2] t2] eqn:E2. intros [= -> _ <-].
  apply Forall_app. split; [exact (Hm _ _ _ _ E)|exact (Hk _ _ _ _ _ E2)].
Qed.

Lemma clean_forOf {A S} (l : list A) (body : S -> A -> Mon.M W S) :
  (forall s x, Clean (body s x)) -> forall s, Clean (Mon.forOf l s body).
Proof.
  intros Hb. induction l as [|x l IH]; intros s; cbn [Mon.forOf].
  - apply clean_ret.
  - apply clean_bind; [apply Hb|exact IH].
Qed.

Lemma clean_forOfReturn {A S V} (l : list A) (body : S -> A -> Mon.M W (S + V)) :
  (forall s x, Clean (body s x)) -> forall s, Clean (Mon.forOfReturn l s body).
Proof.
  intros Hb. induction l as [|x l IH]; intros s; cbn [Mon.forOfReturn].
  - apply clean_ret.
  - apply clean_bind; [apply Hb|]. intros [s1|v]; [apply IH|apply clean_ret].
Qed.

Lemma clean_of_contents_reads {A} (m : Mon.M W A) :
  Emits (fun e => isRead (call e) = true) m -> Clean m.
Proof.
  intros H w a w' tr E. specialize (H w). rewrite E in H. cbn in H.
  eapply Forall_impl; [|exact H]. intros e Hr Hm. cbn beta in Hr.
  destruct (call e); cbn in Hr, Hm; discriminate.
Qed.

Lemma lister_reads (owner repo branch : string) (fuel : nat) :
  forall d, Emits (fun e => isRead (call e) = true)
                  (listFilesRecursively remote owner repo branch fuel d).
Proof.
  induction fuel as [|fuel IH]; intros d; cbn [listFilesRecursively].
  - apply emits_diverge.
  - apply emits_bind; [apply emits_fetch; reflexivity|].
    intros [[items|c s]|st txt];
      [|apply emits_throw|apply emits_ret].
    apply emits_forOf. intros results item.
    destruct (String.eqb (ci_type item) "file"); [apply emits_ret|].
    destruct (String.eqb (ci_type item) "dir"); [|apply emits_ret].
    apply emits_bind; [apply IH|]. intros sub. apply emits_ret.
Qed.

Lemma moveSingleFile_clean (owner repo branch src s dst : string) :
  Clean (moveSingleFile remote owner repo branch src s dst).
Proof.
  intros w r w' tr Hrun.
  pose proof (moveSingleFile_runs remote owner repo branch src s dst w) as R.
  rewrite Hrun in R. cbn in R.
  inversion R; subst;
    repeat (apply Forall_cons || apply Forall_nil);
    intros Hm; cbn in Hm |- *; (reflexivity || discriminate Hm).
Qed.

Lemma moveItem_clean (owner repo branch destination : string) (fuel : nat)
      (t : Tally) (file : FileItem) :
  Clean (moveItem remote owner repo branch fuel destination t file).
Proof.
  unfold moveItem. destruct (checkItem destination file); try apply clean_ret.
  destruct (type file).
  - apply clean_bind; [apply moveSingleFile_clean|]. intros r. apply clean_ret.
  - apply clean_bind; [apply clean_of_contents_reads, lister_reads|].
    intros dirFiles. apply clean_bind; [|intros t'; apply clean_ret].
    apply clean_forOf. intros t0 df.
    apply clean_bind; [apply moveSingleFile_clean|]. intros r. apply clean_ret.
Qed.

(** X25.  Unless the batch mover answers 500, every create/update and
    every delete it issued was answered ok: a success response, and the 400
    of the cycle check as well, never hides a failed write. *)
Theorem no_failed_write_unless_500 :
  forall (fuel : nat) (req : MoveRequest) (sess : Session) (w w' : W)
         (resp : HttpResponse) (tr : list Event),
    moveFiles remote fuel req sess w = (Ret resp, w', tr) ->
    status resp <> 500 ->
    Forall (fun e => isMutation (call e) = true -> ok e = true) tr.
Proof.
  intros fuel req sess w w' resp tr. unfold moveFiles, Mon.catch.
  destruct (negb (moveFilesSchema req)).
  { cbn. intros [= <- _ _] H. now contradiction H. }
  destruct (user sess); [|cbn; intros [= _ _ <-] _; constructor].
  destruct (profile sess) as [pr|]; [|cbn; intros [= _ _ <-] _; constructor].
  destruct (Js.truthy (github_access_token pr));
    [|cbn; intros [= _ _ <-] _; constructor].
  match goal with
  | |- context [Mon.bind ?loop ?k w] =>
      assert (Clean (Mon.bind loop k)) as Hc;
        [|destruct (Mon.bind loop k w) as [[[a|e|] w1] t1] eqn:E]
  end.
  - apply clean_bind.
    + apply clean_forOfReturn. intros t file. apply moveItem_clean.
    + intros [t|r]; apply clean_ret.
  - intros [= _ _ <-] _. exact (Hc _ _ _ _ E).
  - cbn. intros [= <- _ _] H. now contradiction H.
  - discriminate.
Qed.

(** X26.  An empty selection is served by the mover, with a success that
    reports nothing moved and no call made, where the deleter refuses it
    with 400, whoever the caller is. *)
Theorem empty_selection_served_by_mover :
  forall (fuel : nat) (req : MoveRequest) (sess : Session) (pr : Profile)
         (w : W) (dreq : DeleteRequest) (caller : option Profile),
    moveFilesSchema req = true ->
    user sess <> None ->
    profile sess = Some pr ->
    Js.truthy (github_access_token pr) = true ->
    mv_files req = [] ->
    dl_items dreq = [] ->
    moveFiles remote fuel req sess w
    = (Ret {| status := 200; body := BMoved 0 0 [] |}, w, [])
    /\ deleteItems remote dreq caller w
       = (Ret {| status := 400; body := BInvalidInput |}, w, []).
Proof.
  intros fuel req sess pr w dreq caller Hs Hu Hp Ht Hf Hd. split.
  - unfold moveFiles, Mon.catch. rewrite Hs, Hp, Ht, Hf. cbn [negb].
    destruct (user sess); [reflexivity|congruence].
  - apply delete_invalid_is_400. unfold Schema.deleteItemsSchema.
    rewrite Hd. cbn. now rewrite !andb_false_r.
Qed.

End MoverSuccess.

Lemma moved_means_created_and_deleted_witness :
  exists probe msg content destSha dmsg,
    snd (moveSingleFile (Scripted.remote (Scripted.script []))
           "alice" "site" "main" "a/b.txt" "s1" "c/b.txt" Scripted.start)
    = [ {| call := GetContents "alice" "site" "a/b.txt" "main"; ok := true |};
        {| call := GetContents "alice" "site" "c/b.txt" "main"; ok := probe |};
        {| call := PutContents "alice" "site" "c/b.txt" msg content "main" destSha;
           ok := true |};
        {| call := DeleteContents "alice" "site" "a/b.txt" dmsg "s1" "main";
           ok := true |} ].
Proof.
  exact (@moved_means_created_and_deleted
           _ (Scripted.remote (Scripted.script [])) "alice" "site" "main"
           "a/b.txt" "s1" "c/b.txt" Scripted.start _
           {| mr_status := "moved"; mr_reason := None |} _ eq_refl eq_refl).
Defined.

Lemma no_failed_write_unless_500_witness :
  Forall (fun e => isMutation (call e) = true -> ok e = true)
         (snd EarlierItem.run).
Proof.
  refine (@no_failed_write_unless_500
            _ (Scripted.remote (Scripted.script [])) 8 EarlierItem.request
            SameParent.session Scripted.start (snd (fst EarlierItem.run))
            {| status := 400; body := BError (cycleMessage "docs" "docs") |}
            (snd EarlierItem.run) eq_refl _).
  discriminate.
Defined.

Lemma empty_selection_served_by_mover_witness :
  moveFiles (Scripted.remote (Scripted.script [])) 8
    {| mv_owner := "alice"; mv_repo := "site"; mv_files := [];
       mv_destination := "c"; mv_branch := None |}
    SameParent.session Scripted.start
  = (Ret {| status := 200; body := BMoved 0 0 [] |}, Scripted.start, [])
  /\ deleteItems (Scripted.remote (Scripted.script []))
       {| dl_owner := "alice"; dl_repo := "site"; dl_branch := None;
          dl_items := [] |}
       None Scripted.start
     = (Ret {| status := 400; body := BInvalidInput |}, Scripted.start, []).
Proof.
  refine (@empty_selection_served_by_mover
            _ (Scripted.remote (Scripted.script [])) 8
            {| mv_owner := "alice"; mv_repo := "site"; mv_files := [];
               mv_destination := "c"; mv_branch := None |}
            SameParent.session _ Scripted.start
            {| dl_owner := "alice"; dl_repo := "site"; dl_branch := None;
               dl_items := [] |}
            None eq_refl _ eq_refl eq_refl eq_refl eq_refl).
  discriminate.
Defined.
